(** * Markdoc custom-format generators: a shallow embedding

    The repository holds three React form widgets (DocFooter,
    RequestResponse in two variants, ButtonList).  Each keeps a list of
    entries in component state, validates the fields, serializes the state
    into a Markdoc tag and copies the tag to the clipboard.

    The embedding follows the TypeScript sources:
    - a JavaScript string is the list of its UTF-16 code units;
    - a component's [useState] slots form a record, and every handler is a
      function from the state of the render it closes over to the next
      state;
    - the browser calls of [handleCopy] (clipboard, timer, console) are
      returned as a list of effects, the outcome of the clipboard promise
      being an argument. *)

From Stdlib Require Import Ascii String NArith Arith Bool List Lia.
From Stdlib Require DecimalString DecimalNat.
Import ListNotations.

(* ================================================================== *)
(** * JavaScript strings and the library calls the sources use *)
(* ================================================================== *)

Module JS.

(** A UTF-16 code unit. *)
Definition char := N.

Definition jsstring := list char.

(** An ASCII literal of the source as a JavaScript string. *)
Definition lit (s : string) : jsstring :=
  map N_of_ascii (list_ascii_of_string s).

Definition dquote : char := 34%N.
Definition squote : char := 39%N.
Definition backslash : char := 92%N.
Definition newline : char := 10%N.
Definition space : char := 32%N.

(** [s] between two double-quote characters, as the templates write it. *)
Definition quoted (s : jsstring) : jsstring := dquote :: s ++ [dquote].

(** Truthiness of a string: only the empty string is falsy. *)
Definition truthy (s : jsstring) : bool :=
  match s with [] => false | _ :: _ => true end.

Definition char_eqb : char -> char -> bool := N.eqb.

Fixpoint string_eqb (a b : jsstring) : bool :=
  match a, b with
  | [], [] => true
  | x :: a', y :: b' => char_eqb x y && string_eqb a' b'
  | _, _ => false
  end.

(** [String.prototype.startsWith]. *)
Fixpoint startsWith (s p : jsstring) {struct p} : bool :=
  match p with
  | [] => true
  | c :: p' =>
      match s with
      | [] => false
      | d :: s' => char_eqb d c && startsWith s' p'
      end
  end.

(** The characters matched by the regular expression class [\s] and
    stripped by [trim]: ECMAScript WhiteSpace and LineTerminator. *)
Definition is_ws (c : char) : bool :=
  ((9 <=? c) && (c <=? 13) || (c =? 32) || (c =? 160) || (c =? 5760)
   || (8192 <=? c) && (c <=? 8202) || (c =? 8232) || (c =? 8233)
   || (c =? 8239) || (c =? 8287) || (c =? 12288) || (c =? 65279))%N.

Fixpoint trimStart (s : jsstring) : jsstring :=
  match s with
  | [] => []
  | c :: t => if is_ws c then trimStart t else s
  end.

Definition trimEnd (s : jsstring) : jsstring := rev (trimStart (rev s)).

(** [String.prototype.trim]. *)
Definition trim (s : jsstring) : jsstring := trimEnd (trimStart s).

(** [s.replace(/c/g, r)] for a single character [c]. *)
Definition replace_char (c : char) (r : jsstring) (s : jsstring) : jsstring :=
  flat_map (fun d => if char_eqb d c then r else [d]) s.

(** [s.replace(/\s+/g, r)]: every maximal run of whitespace becomes [r].
    [in_run] tells that the previous character belonged to a run whose
    replacement has been emitted already. *)
Fixpoint replace_ws_runs_from (in_run : bool) (r : jsstring) (s : jsstring)
  : jsstring :=
  match s with
  | [] => []
  | c :: t =>
      if is_ws c
      then (if in_run then [] else r) ++ replace_ws_runs_from true r t
      else c :: replace_ws_runs_from false r t
  end.

Definition replace_ws_runs : jsstring -> jsstring -> jsstring :=
  replace_ws_runs_from false.

(** [Array.prototype.join]. *)
Fixpoint join (sep : jsstring) (l : list jsstring) : jsstring :=
  match l with
  | [] => []
  | [x] => x
  | x :: t => x ++ sep ++ join sep t
  end.

Fixpoint digits (u : Decimal.uint) : jsstring :=
  match u with
  | Decimal.Nil => []
  | Decimal.D0 u => 48%N :: digits u
  | Decimal.D1 u => 49%N :: digits u
  | Decimal.D2 u => 50%N :: digits u
  | Decimal.D3 u => 51%N :: digits u
  | Decimal.D4 u => 52%N :: digits u
  | Decimal.D5 u => 53%N :: digits u
  | Decimal.D6 u => 54%N :: digits u
  | Decimal.D7 u => 55%N :: digits u
  | Decimal.D8 u => 56%N :: digits u
  | Decimal.D9 u => 57%N :: digits u
  end.

(** [Number.prototype.toString] on an array length: decimal digits. *)
Definition toString (n : nat) : jsstring := digits (Nat.to_uint n).

(** ** [JSON.stringify] on strings, arrays and objects *)

Definition hexdigit (n : N) : char :=
  (if n <? 10 then 48 + n else 87 + n)%N.

(** UnicodeEscape: backslash, [u], four lowercase hexadecimal digits. *)
Definition unicodeEscape (c : char) : jsstring :=
  lit "\u" ++ [hexdigit ((c / 4096) mod 16); hexdigit ((c / 256) mod 16);
               hexdigit ((c / 16) mod 16); hexdigit (c mod 16)]%N.

Definition is_high_surrogate (c : char) : bool :=
  ((55296 <=? c) && (c <=? 56319))%N.
Definition is_low_surrogate (c : char) : bool :=
  ((56320 <=? c) && (c <=? 57343))%N.

(** The escape of one code unit that is not part of a surrogate pair. *)
Definition quoteJSONChar (c : char) : jsstring :=
  (if c =? 8 then lit "\b"
   else if c =? 9 then lit "\t"
   else if c =? 10 then lit "\n"
   else if c =? 12 then lit "\f"
   else if c =? 13 then lit "\r"
   else if c =? 34 then [backslash; dquote]
   else if c =? 92 then [backslash; backslash]
   else if (c <? 32) || is_high_surrogate c || is_low_surrogate c
        then unicodeEscape c
   else [c])%N.

Fixpoint quoteJSONBody (s : jsstring) : jsstring :=
  match s with
  | [] => []
  | c :: t =>
      if is_high_surrogate c then
        match t with
        | d :: t' =>
            if is_low_surrogate d then c :: d :: quoteJSONBody t'
            else unicodeEscape c ++ quoteJSONBody t
        | [] => unicodeEscape c
        end
      else quoteJSONChar c ++ quoteJSONBody t
  end.

(** QuoteJSONString of ECMA-262. *)
Definition quoteJSONString (s : jsstring) : jsstring :=
  quoted (quoteJSONBody s).

(** The JSON values the sources build: strings, arrays, and objects with
    their properties in insertion order. *)
#[warnings="-register-all"] Inductive json :=
| JString (s : jsstring)
| JArray (l : list json)
| JObject (props : list (jsstring * json)).

(** [JSON.stringify(v)] without indentation. *)
Fixpoint stringify (v : json) : jsstring :=
  match v with
  | JString s => quoteJSONString s
  | JArray l => lit "[" ++ join (lit ",") (map stringify l) ++ lit "]"
  | JObject props =>
      lit "{"
      ++ join (lit ",")
           (map (fun kv => match kv with
                           | (k, x) => quoteJSONString k ++ lit ":" ++ stringify x
                           end) props)
      ++ lit "}"
  end.

End JS.

Import JS.

(** The browser calls a handler can make. *)
Inductive effect :=
| ClipboardWriteText (text : jsstring)
| SetTimeout (ms : nat)
| ConsoleError.

Definition clipboard_writes (es : list effect) : list jsstring :=
  flat_map (fun e => match e with ClipboardWriteText t => [t] | _ => [] end) es.

(** [l.map((x, i) => f i x)] and [l.filter((x, i) => p i x)]. *)
Fixpoint mapi_from {A B} (f : nat -> A -> B) (i : nat) (l : list A) : list B :=
  match l with
  | [] => []
  | x :: t => f i x :: mapi_from f (S i) t
  end.

Definition mapi {A B} (f : nat -> A -> B) : list A -> list B := mapi_from f 0.

Fixpoint filteri_from {A} (p : nat -> A -> bool) (i : nat) (l : list A) : list A :=
  match l with
  | [] => []
  | x :: t => if p i x then x :: filteri_from p (S i) t else filteri_from p (S i) t
  end.

Definition filteri {A} (p : nat -> A -> bool) : list A -> list A :=
  filteri_from p 0.

(* ================================================================== *)
(** * DocFooterGenerator *)
(* ================================================================== *)

Module DocFooter.

(** [interface RelatedLink]; [urlError] is an optional property. *)
Record RelatedLink := mkLink {
  title : jsstring;
  url : jsstring;
  urlError : option jsstring
}.

(** [interface SeeAlsoLink] has the same three properties. *)
Definition SeeAlsoLink := RelatedLink.

Record State := mkState {
  links : list RelatedLink;
  seeAlso : option SeeAlsoLink;
  copied : bool;
  showSeeAlso : bool
}.

Definition emptyLink : RelatedLink := mkLink [] [] (Some []).

Definition init : State := mkState [emptyLink] None false false.

Inductive field := Title | Url.

Definition validateUrl (u : jsstring) : jsstring :=
  if negb (truthy u) then lit "URL is required"
  else if negb (startsWith u (lit "/docs")) then lit "URL must start with /docs"
  else [].

Definition setLinks (l : list RelatedLink) (s : State) : State :=
  mkState l (seeAlso s) (copied s) (showSeeAlso s).

Definition setSeeAlso (x : option SeeAlsoLink) (s : State) : State :=
  mkState (links s) x (copied s) (showSeeAlso s).

Definition setCopied (b : bool) (s : State) : State :=
  mkState (links s) (seeAlso s) b (showSeeAlso s).

Definition setShowSeeAlso (b : bool) (s : State) : State :=
  mkState (links s) (seeAlso s) (copied s) b.

Definition handleAddLink (s : State) : State :=
  setLinks (links s ++ [emptyLink]) s.

Definition handleRemoveLink (index : nat) (s : State) : State :=
  let newLinks := filteri (fun i _ => negb (i =? index)) (links s) in
  setLinks newLinks s.

(** [{ ...link, [field]: value }], then the [urlError] update. *)
Definition changeLink (fld : field) (value : jsstring) (link : RelatedLink)
  : RelatedLink :=
  match fld with
  | Title => mkLink value (url link) (urlError link)
  | Url => mkLink (title link) value (Some (validateUrl value))
  end.

Definition handleLinkChange (index : nat) (fld : field) (value : jsstring)
    (s : State) : State :=
  let newLinks :=
    mapi (fun i link => if i =? index then changeLink fld value link else link)
         (links s) in
  setLinks newLinks s.

Definition handleSeeAlsoChange (fld : field) (value : jsstring) (s : State)
  : State :=
  let prev := match seeAlso s with Some p => p | None => emptyLink end in
  setSeeAlso (Some (changeLink fld value prev)) s.

Definition toggleSeeAlso (s : State) : State :=
  let s' := setShowSeeAlso (negb (showSeeAlso s)) s in
  if negb (showSeeAlso s) then setSeeAlso (Some emptyLink) s'
  else setSeeAlso None s'.

Definition linkHasError (link : RelatedLink) : bool :=
  negb (string_eqb (validateUrl (url link)) []) || negb (truthy (title link)).

Definition hasErrors (s : State) : bool :=
  let linksHaveErrors := existsb linkHasError (links s) in
  let seeAlsoHasErrors :=
    showSeeAlso s &&
    match seeAlso s with
    | Some sa => linkHasError sa
    | None => false
    end in
  linksHaveErrors || seeAlsoHasErrors.

Definition placeholder : jsstring :=
  lit "// Please fix validation errors before generating the code".

(** [JSON.stringify(x)], then every double quote replaced by a single
    quote, then every whitespace run replaced by one space. *)
Definition jsonAttr (v : json) : jsstring :=
  replace_ws_runs [space] (replace_char dquote [squote] (stringify v)).

Definition linkObject (t u : jsstring) : json :=
  JObject [(lit "title", JString t); (lit "url", JString u)].

Definition generateMarkdoc (s : State) : jsstring :=
  if hasErrors s then placeholder
  else
    let relatedLinksStr :=
      jsonAttr (JArray (map (fun l => linkObject (title l) (url l)) (links s))) in
    let parts := [lit "relatedLinks=" ++ relatedLinksStr] in
    let parts :=
      match seeAlso s with
      | Some sa =>
          if showSeeAlso s && truthy (title sa) && truthy (url sa)
          then parts ++ [lit "seeAlso=" ++ jsonAttr (linkObject (title sa) (url sa))]
          else parts
      | None => parts
      end in
    lit "{% docfooter " ++ join [space] parts ++ lit " /%}".

(** [handleCopy]; [clipboard_ok] tells whether the promise of
    [navigator.clipboard.writeText] resolves. *)
Definition handleCopy (clipboard_ok : bool) (s : State) : State * list effect :=
  if hasErrors s then (s, [])
  else
    let w := ClipboardWriteText (generateMarkdoc s) in
    if clipboard_ok then (setCopied true s, [w; SetTimeout 2000])
    else (s, [w; ConsoleError]).

(** The callback of the timer started by [handleCopy]. *)
Definition copiedTimeout (s : State) : State := setCopied false s.

(** What the rendered form lets the user do.  The remove button of a row
    is rendered with [disabled={links.length === 1}], the See Also inputs
    only while [showSeeAlso] holds, the copy button with
    [disabled={hasErrors()}]. *)
Inductive action :=
| AddLink
| RemoveLink (index : nat)
| LinkChange (index : nat) (fld : field) (value : jsstring)
| SeeAlsoChange (fld : field) (value : jsstring)
| ToggleSeeAlso
| Copy (clipboard_ok : bool)
| Timeout.

Definition dispatch (a : action) (s : State) : State :=
  match a with
  | AddLink => handleAddLink s
  | RemoveLink i =>
      if length (links s) =? 1 then s else handleRemoveLink i s
  | LinkChange i f v => handleLinkChange i f v s
  | SeeAlsoChange f v =>
      if showSeeAlso s then handleSeeAlsoChange f v s else s
  | ToggleSeeAlso => toggleSeeAlso s
  | Copy ok => if hasErrors s then s else fst (handleCopy ok s)
  | Timeout => copiedTimeout s
  end.

Definition run (acts : list action) (s : State) : State :=
  fold_left (fun st a => dispatch a st) acts s.

Inductive reachable : State -> Prop :=
| reachable_init : reachable init
| reachable_step a s : reachable s -> reachable (dispatch a s).

End DocFooter.

(* ================================================================== *)
(** * ButtonListGenerator *)
(* ================================================================== *)

Module ButtonList.

Record ButtonItem := mkItem {
  label : jsstring;
  link : jsstring;
  id : jsstring
}.

Record State := mkState {
  items : list ButtonItem;
  copied : bool
}.

Definition init : State := mkState [mkItem [] [] (lit "1")] false.

(** [keyof Omit<ButtonItem, 'id'>]. *)
Inductive field := Label | Link.

Definition setItems (l : list ButtonItem) (s : State) : State :=
  mkState l (copied s).

Definition setCopied (b : bool) (s : State) : State :=
  mkState (items s) b.

Definition addItem (s : State) : State :=
  let newId := toString (length (items s) + 1) in
  setItems (items s ++ [mkItem [] [] newId]) s.

Definition removeItem (id0 : jsstring) (s : State) : State :=
  if length (items s) =? 1 then s
  else setItems (filter (fun item => negb (string_eqb (id item) id0)) (items s)) s.

(** [{ ...item, [field]: value }]. *)
Definition setField (fld : field) (value : jsstring) (item : ButtonItem)
  : ButtonItem :=
  match fld with
  | Label => mkItem value (link item) (id item)
  | Link => mkItem (label item) value (id item)
  end.

Definition updateItem (id0 : jsstring) (fld : field) (value : jsstring)
    (s : State) : State :=
  setItems
    (map (fun item => if string_eqb (id item) id0 then setField fld value item
                      else item)
         (items s)) s.

Definition placeholder : jsstring :=
  lit "// Please fill in all fields for each button".

Definition generateMarkdoc (s : State) : jsstring :=
  if existsb (fun item => negb (truthy (label item)) || negb (truthy (link item)))
             (items s)
  then placeholder
  else
    let itemsStr :=
      join (lit ", ")
        (map (fun item => lit "{ label: " ++ quoted (label item)
                          ++ lit ", link: " ++ quoted (link item) ++ lit " }")
             (items s)) in
    lit "{% buttonlist items=[ " ++ itemsStr ++ lit " ] /%}".

Definition handleCopy (clipboard_ok : bool) (s : State) : State * list effect :=
  if existsb (fun item => negb (truthy (label item)) || negb (truthy (link item)))
             (items s)
  then (s, [])
  else
    let w := ClipboardWriteText (generateMarkdoc s) in
    if clipboard_ok then (setCopied true s, [w; SetTimeout 2000])
    else (s, [w; ConsoleError]).

Definition copiedTimeout (s : State) : State := setCopied false s.

Definition hasErrors (s : State) : bool :=
  existsb (fun item => negb (truthy (label item)) || negb (truthy (link item)))
          (items s).

(** The rendered form: a remove button per row, with
    [disabled={items.length === 1}]; two inputs per row; the copy button
    with [disabled={hasErrors()}]. *)
Inductive action :=
| AddItem
| RemoveItem (id0 : jsstring)
| UpdateItem (id0 : jsstring) (fld : field) (value : jsstring)
| Copy (clipboard_ok : bool)
| Timeout.

Definition dispatch (a : action) (s : State) : State :=
  match a with
  | AddItem => addItem s
  | RemoveItem i =>
      if length (items s) =? 1 then s
      else if existsb (fun item => string_eqb (id item) i) (items s)
           then removeItem i s else s
  | UpdateItem i f v =>
      if existsb (fun item => string_eqb (id item) i) (items s)
      then updateItem i f v s else s
  | Copy ok => if hasErrors s then s else fst (handleCopy ok s)
  | Timeout => copiedTimeout s
  end.

Definition run (acts : list action) (s : State) : State :=
  fold_left (fun st a => dispatch a st) acts s.

Inductive reachable : State -> Prop :=
| reachable_init : reachable init
| reachable_step a s : reachable s -> reachable (dispatch a s).

End ButtonList.

(* ================================================================== *)
(** * RequestResponseGenerator, the variant with Prism highlighting *)
(* ================================================================== *)

Module RequestResponse.

Record RequestCode := mkRequest {
  language : jsstring;
  code : jsstring;
  id : jsstring
}.

(** [Record<string, string>]: the highlighted markup per request id, and
    under the key [response]. *)
Definition Highlighted := list (jsstring * jsstring).

Record State := mkState {
  method : jsstring;
  requests : list RequestCode;
  response : jsstring;
  copied : bool;
  highlightedCode : Highlighted
}.

Definition init : State :=
  mkState (lit "GET") [mkRequest (lit "cURL") [] (lit "1")] [] false [].

Definition methods : list jsstring :=
  [lit "GET"; lit "POST"; lit "PUT"; lit "DELETE"; lit "PATCH"].

(** [Object.keys(LANGUAGE_CONFIGS)]. *)
Definition languages : list jsstring :=
  [lit "cURL"; lit "C#"; lit "Python"; lit "Go"; lit "Node.js"; lit "PHP"].

(** [keyof RequestCode]. *)
Inductive field := Language | Code | Id.

Definition setMethod (m : jsstring) (s : State) : State :=
  mkState m (requests s) (response s) (copied s) (highlightedCode s).

Definition setRequests (l : list RequestCode) (s : State) : State :=
  mkState (method s) l (response s) (copied s) (highlightedCode s).

Definition setResponse (r : jsstring) (s : State) : State :=
  mkState (method s) (requests s) r (copied s) (highlightedCode s).

Definition setCopied (b : bool) (s : State) : State :=
  mkState (method s) (requests s) (response s) b (highlightedCode s).

Definition setHighlightedCode (f : Highlighted -> Highlighted) (s : State)
  : State :=
  mkState (method s) (requests s) (response s) (copied s) (f (highlightedCode s)).

Definition stringifyCode (c : jsstring) : jsstring :=
  replace_ws_runs [space]
    (replace_char newline (lit "\n")
       (replace_char squote [backslash; squote]
          (trim c))).

Definition addRequestBlock (s : State) : State :=
  let newId := toString (length (requests s) + 1) in
  setRequests (requests s ++ [mkRequest (lit "cURL") [] newId]) s.

(** [delete newHighlighted[id]] on a copy of the record. *)
Definition deleteKey (k : jsstring) (h : Highlighted) : Highlighted :=
  filter (fun kv => negb (string_eqb (fst kv) k)) h.

Definition removeRequestBlock (id0 : jsstring) (s : State) : State :=
  if length (requests s) =? 1 then s
  else
    setHighlightedCode (deleteKey id0)
      (setRequests
         (filter (fun req => negb (string_eqb (id req) id0)) (requests s)) s).

Definition setField (fld : field) (value : jsstring) (req : RequestCode)
  : RequestCode :=
  match fld with
  | Language => mkRequest value (code req) (id req)
  | Code => mkRequest (language req) value (id req)
  | Id => mkRequest (language req) (code req) value
  end.

Definition updateRequest (id0 : jsstring) (fld : field) (value : jsstring)
    (s : State) : State :=
  setRequests
    (map (fun req => if string_eqb (id req) id0 then setField fld value req
                     else req)
         (requests s)) s.

Definition placeholder : jsstring :=
  lit "// Please fill in all request code blocks and response field".

Definition generateMarkdoc (s : State) : jsstring :=
  if existsb (fun req => negb (truthy (code req))) (requests s)
     || negb (truthy (response s))
  then placeholder
  else
    let requestsStr :=
      join (lit ",")
        (map (fun req => lit "{language: " ++ quoted (language req)
                         ++ lit ", code: " ++ quoted (stringifyCode (code req))
                         ++ lit "}")
             (requests s)) in
    lit "{% requestresponse method=" ++ quoted (method s)
    ++ lit " requests=[" ++ requestsStr
    ++ lit "] response=" ++ quoted (stringifyCode (response s)) ++ lit " /%}".

Definition handleCopy (clipboard_ok : bool) (s : State) : State * list effect :=
  if existsb (fun req => negb (truthy (code req))) (requests s)
     || negb (truthy (response s))
  then (s, [])
  else
    let w := ClipboardWriteText (generateMarkdoc s) in
    if clipboard_ok then (setCopied true s, [w; SetTimeout 2000])
    else (s, [w; ConsoleError]).

Definition copiedTimeout (s : State) : State := setCopied false s.

Definition hasErrors (s : State) : bool :=
  existsb (fun req => negb (truthy (code req))) (requests s)
  || negb (truthy (response s)).

(** The rendered form: selects for the method and for each language
    (their options are [methods] and [languages]), a text area per
    request and one for the response, a remove button per request with
    [disabled={requests.length === 1}], the copy button with
    [disabled={hasErrors()}]. *)
Inductive action :=
| SetMethod (m : jsstring)
| AddRequestBlock
| RemoveRequestBlock (id0 : jsstring)
| SelectLanguage (id0 : jsstring) (value : jsstring)
| EditCode (id0 : jsstring) (value : jsstring)
| SetResponse (value : jsstring)
| Copy (clipboard_ok : bool)
| Timeout.

Definition handle (a : action) (s : State) : State :=
  let rendered i := existsb (fun req => string_eqb (id req) i) (requests s) in
  match a with
  | SetMethod m =>
      if existsb (string_eqb m) methods then setMethod m s else s
  | AddRequestBlock => addRequestBlock s
  | RemoveRequestBlock i =>
      if length (requests s) =? 1 then s
      else if rendered i then removeRequestBlock i s else s
  | SelectLanguage i v =>
      if rendered i && existsb (string_eqb v) languages
      then updateRequest i Language v s else s
  | EditCode i v => if rendered i then updateRequest i Code v s else s
  | SetResponse v => setResponse v s
  | Copy ok => if hasErrors s then s else fst (handleCopy ok s)
  | Timeout => copiedTimeout s
  end.

(** The hook depends on [requests] and [response]: it runs after an action
    that stored a new array in [requests] or another string in
    [response]. *)
Definition setsDependencies (a : action) (s : State) : bool :=
  let rendered i := existsb (fun req => string_eqb (id req) i) (requests s) in
  match a with
  | AddRequestBlock => true
  | RemoveRequestBlock i => negb (length (requests s) =? 1) && rendered i
  | SelectLanguage i v => rendered i && existsb (string_eqb v) languages
  | EditCode i _ => rendered i
  | SetResponse v => negb (string_eqb v (response s))
  | SetMethod _ | Copy _ | Timeout => false
  end.

(** [interface LanguageConfig] and the table [LANGUAGE_CONFIGS]. *)
Record LanguageConfig := mkConfig {
  name : jsstring;
  prismLanguage : jsstring
}.

Definition LANGUAGE_CONFIGS : list (jsstring * LanguageConfig) :=
  [(lit "cURL", mkConfig (lit "cURL") (lit "bash"));
   (lit "C#", mkConfig (lit "C#") (lit "csharp"));
   (lit "Python", mkConfig (lit "Python") (lit "python"));
   (lit "Go", mkConfig (lit "Go") (lit "go"));
   (lit "Node.js", mkConfig (lit "Node.js") (lit "javascript"));
   (lit "PHP", mkConfig (lit "PHP") (lit "php"))].

(** [table[k]]. *)
Fixpoint lookup {V} (k : jsstring) (table : list (jsstring * V)) : option V :=
  match table with
  | [] => None
  | (k', v) :: rest => if string_eqb k' k then Some v else lookup k rest
  end.

(** [{ ...prev, [k]: v }]. *)
Fixpoint setKey (k v : jsstring) (h : Highlighted) : Highlighted :=
  match h with
  | [] => [(k, v)]
  | (k', v') :: rest =>
      if string_eqb k' k then (k, v) :: rest else (k', v') :: setKey k v rest
  end.

Section Highlighting.

(** The two library calls of the [useEffect] hook are parameters.
    [Prism_highlight text language] is
    [Prism.highlight(text, Prism.languages[language], language)]: the
    markup, or [None] when the call throws.  [prettyJSON text] is
    [JSON.stringify(JSON.parse(text), null, 2)], or [None] when
    [JSON.parse] throws. *)
Variable Prism_highlight : jsstring -> jsstring -> option jsstring.
Variable prettyJSON : jsstring -> option jsstring.

(** The loop over [requests]: every request with a non-empty code is
    highlighted in the Prism language of its table entry and stored under
    its id.  Nothing catches what the loop throws, be it for a language
    outside the table or from Prism. *)
Fixpoint highlightRequests (reqs : list RequestCode) (h : Highlighted)
  : option Highlighted :=
  match reqs with
  | [] => Some h
  | request :: rest =>
      if truthy (code request) then
        match lookup (language request) LANGUAGE_CONFIGS with
        | None => None
        | Some config =>
            match Prism_highlight (code request) (prismLanguage config) with
            | None => None
            | Some highlighted =>
                highlightRequests rest (setKey (id request) highlighted h)
            end
        end
      else highlightRequests rest h
  end.

(** The response: highlighted as pretty-printed JSON inside [try], and as
    it is inside [catch], which nothing guards. *)
Definition highlightResponse (resp : jsstring) (h : Highlighted)
  : option Highlighted :=
  if truthy resp then
    let fallback :=
      match Prism_highlight resp (lit "javascript") with
      | None => None
      | Some highlighted => Some (setKey (lit "response") highlighted h)
      end in
    match prettyJSON resp with
    | None => fallback
    | Some prettyResponse =>
        match Prism_highlight prettyResponse (lit "javascript") with
        | None => fallback
        | Some highlighted => Some (setKey (lit "response") highlighted h)
        end
    end
  else Some h.

(** The hook on the state of a render; [None] when it throws, which
    unmounts the widget. *)
Definition highlightEffect (s : State) : option State :=
  match highlightRequests (requests s) (highlightedCode s) with
  | None => None
  | Some h =>
      match highlightResponse (response s) h with
      | None => None
      | Some h' => Some (setHighlightedCode (fun _ => h') s)
      end
  end.

(** An action: the handler, the render of its state, then the hook when
    its dependencies were stored anew. *)
Definition dispatch (a : action) (s : State) : option State :=
  let s' := handle a s in
  if setsDependencies a s then highlightEffect s' else Some s'.

Fixpoint run (acts : list action) (s : State) : option State :=
  match acts with
  | [] => Some s
  | a :: rest =>
      match dispatch a s with
      | None => None
      | Some s' => run rest s'
      end
  end.

Inductive reachable : State -> Prop :=
| reachable_init : reachable init
| reachable_step a s s' :
    reachable s -> dispatch a s = Some s' -> reachable s'.

End Highlighting.

End RequestResponse.

(* ================================================================== *)
(** * RequestResponseGenerator, the plain variant *)
(* ================================================================== *)

Module RequestResponsePlain.

Record RequestCode := mkRequest {
  language : jsstring;
  code : jsstring;
  id : jsstring
}.

Record State := mkState {
  method : jsstring;
  requests : list RequestCode;
  response : jsstring;
  copied : bool
}.

Definition init : State :=
  mkState (lit "GET") [mkRequest (lit "cURL") [] (lit "1")] [] false.

Definition methods : list jsstring :=
  [lit "GET"; lit "POST"; lit "PUT"; lit "DELETE"; lit "PATCH"].

Definition LANGUAGES : list jsstring :=
  [lit "cURL"; lit "C#"; lit "Python"; lit "Go"; lit "Node.js"; lit "PHP"].

Inductive field := Language | Code | Id.

Definition setMethod (m : jsstring) (s : State) : State :=
  mkState m (requests s) (response s) (copied s).

Definition setRequests (l : list RequestCode) (s : State) : State :=
  mkState (method s) l (response s) (copied s).

Definition setResponse (r : jsstring) (s : State) : State :=
  mkState (method s) (requests s) r (copied s).

Definition setCopied (b : bool) (s : State) : State :=
  mkState (method s) (requests s) (response s) b.

Definition stringifyCode (c : jsstring) : jsstring :=
  replace_ws_runs [space]
    (replace_char newline (lit "\n")
       (replace_char squote [backslash; squote]
          (trim c))).

Definition addRequestBlock (s : State) : State :=
  let newId := toString (length (requests s) + 1) in
  setRequests (requests s ++ [mkRequest (lit "cURL") [] newId]) s.

Definition removeRequestBlock (id0 : jsstring) (s : State) : State :=
  if length (requests s) =? 1 then s
  else
    setRequests
      (filter (fun req => negb (string_eqb (id req) id0)) (requests s)) s.

Definition setField (fld : field) (value : jsstring) (req : RequestCode)
  : RequestCode :=
  match fld with
  | Language => mkRequest value (code req) (id req)
  | Code => mkRequest (language req) value (id req)
  | Id => mkRequest (language req) (code req) value
  end.

Definition updateRequest (id0 : jsstring) (fld : field) (value : jsstring)
    (s : State) : State :=
  setRequests
    (map (fun req => if string_eqb (id req) id0 then setField fld value req
                     else req)
         (requests s)) s.

Definition placeholder : jsstring :=
  lit "// Please fill in all request code blocks and response field".

Definition generateMarkdoc (s : State) : jsstring :=
  if existsb (fun req => negb (truthy (code req))) (requests s)
     || negb (truthy (response s))
  then placeholder
  else
    let requestsStr :=
      join (lit ",")
        (map (fun req => lit "{language: " ++ quoted (language req)
                         ++ lit ", code: " ++ quoted (stringifyCode (code req))
                         ++ lit "}")
             (requests s)) in
    lit "{% requestresponse method=" ++ quoted (method s)
    ++ lit " requests=[" ++ requestsStr
    ++ lit "] response=" ++ quoted (stringifyCode (response s)) ++ lit " /%}".

Definition handleCopy (clipboard_ok : bool) (s : State) : State * list effect :=
  if existsb (fun req => negb (truthy (code req))) (requests s)
     || negb (truthy (response s))
  then (s, [])
  else
    let w := ClipboardWriteText (generateMarkdoc s) in
    if clipboard_ok then (setCopied true s, [w; SetTimeout 2000])
    else (s, [w; ConsoleError]).

Definition copiedTimeout (s : State) : State := setCopied false s.

Definition hasErrors (s : State) : bool :=
  existsb (fun req => negb (truthy (code req))) (requests s)
  || negb (truthy (response s)).

Inductive action :=
| SetMethod (m : jsstring)
| AddRequestBlock
| RemoveRequestBlock (id0 : jsstring)
| SelectLanguage (id0 : jsstring) (value : jsstring)
| EditCode (id0 : jsstring) (value : jsstring)
| SetResponse (value : jsstring)
| Copy (clipboard_ok : bool)
| Timeout.

Definition dispatch (a : action) (s : State) : State :=
  let rendered i := existsb (fun req => string_eqb (id req) i) (requests s) in
  match a with
  | SetMethod m =>
      if existsb (string_eqb m) methods then setMethod m s else s
  | AddRequestBlock => addRequestBlock s
  | RemoveRequestBlock i =>
      if length (requests s) =? 1 then s
      else if rendered i then removeRequestBlock i s else s
  | SelectLanguage i v =>
      if rendered i && existsb (string_eqb v) LANGUAGES
      then updateRequest i Language v s else s
  | EditCode i v => if rendered i then updateRequest i Code v s else s
  | SetResponse v => setResponse v s
  | Copy ok => if hasErrors s then s else fst (handleCopy ok s)
  | Timeout => copiedTimeout s
  end.

Definition run (acts : list action) (s : State) : State :=
  fold_left (fun st a => dispatch a st) acts s.

Inductive reachable : State -> Prop :=
| reachable_init : reachable init
| reachable_step a s : reachable s -> reachable (dispatch a s).

End RequestResponsePlain.

(* ================================================================== *)
(** * The three widgets of the application, side by side *)
(* ================================================================== *)

Inductive widget :=
| DocFooterW (s : DocFooter.State)
| RequestResponseW (s : RequestResponse.State)
| RequestResponsePlainW (s : RequestResponsePlain.State)
| ButtonListW (s : ButtonList.State).

(** The Template Serializer of a widget. *)
Definition serialize (w : widget) : jsstring :=
  match w with
  | DocFooterW s => DocFooter.generateMarkdoc s
  | RequestResponseW s => RequestResponse.generateMarkdoc s
  | RequestResponsePlainW s => RequestResponsePlain.generateMarkdoc s
  | ButtonListW s => ButtonList.generateMarkdoc s
  end.

(** The error predicate that disables the copy button. *)
Definition hasErrors (w : widget) : bool :=
  match w with
  | DocFooterW s => DocFooter.hasErrors s
  | RequestResponseW s => RequestResponse.hasErrors s
  | RequestResponsePlainW s => RequestResponsePlain.hasErrors s
  | ButtonListW s => ButtonList.hasErrors s
  end.

Definition placeholder (w : widget) : jsstring :=
  match w with
  | DocFooterW _ => DocFooter.placeholder
  | RequestResponseW _ => RequestResponse.placeholder
  | RequestResponsePlainW _ => RequestResponsePlain.placeholder
  | ButtonListW _ => ButtonList.placeholder
  end.

(** The Clipboard Publisher of a widget. *)
Definition handleCopy (clipboard_ok : bool) (w : widget) : widget * list effect :=
  match w with
  | DocFooterW s =>
      let r := DocFooter.handleCopy clipboard_ok s in (DocFooterW (fst r), snd r)
  | RequestResponseW s =>
      let r := RequestResponse.handleCopy clipboard_ok s in
      (RequestResponseW (fst r), snd r)
  | RequestResponsePlainW s =>
      let r := RequestResponsePlain.handleCopy clipboard_ok s in
      (RequestResponsePlainW (fst r), snd r)
  | ButtonListW s =>
      let r := ButtonList.handleCopy clipboard_ok s in (ButtonListW (fst r), snd r)
  end.

(** ** The validation rules, in the words of the specification *)

(** A title, label, code or response field is invalid iff it is empty. *)
Definition empty_field (v : jsstring) : Prop := v = [].

Definition has_prefix (p u : jsstring) : Prop := exists suffix, u = p ++ suffix.

(** A url field is invalid iff it is empty or lacks the path prefix. *)
Definition invalid_url (u : jsstring) : Prop :=
  u = [] \/ ~ has_prefix (lit "/docs") u.

Definition invalid_link (l : DocFooter.RelatedLink) : Prop :=
  empty_field (DocFooter.title l) \/ invalid_url (DocFooter.url l).

(** Some required field of some entry of the widget is invalid. *)
Definition some_field_invalid (w : widget) : Prop :=
  match w with
  | DocFooterW s =>
      Exists invalid_link (DocFooter.links s)
      \/ (DocFooter.showSeeAlso s = true
          /\ exists sa, DocFooter.seeAlso s = Some sa /\ invalid_link sa)
  | RequestResponseW s =>
      Exists (fun r => empty_field (RequestResponse.code r))
             (RequestResponse.requests s)
      \/ empty_field (RequestResponse.response s)
  | RequestResponsePlainW s =>
      Exists (fun r => empty_field (RequestResponsePlain.code r))
             (RequestResponsePlain.requests s)
      \/ empty_field (RequestResponsePlain.response s)
  | ButtonListW s =>
      Exists (fun b => empty_field (ButtonList.label b)
                       \/ empty_field (ButtonList.link b))
             (ButtonList.items s)
  end.

(** ** What an escaped value looks like *)

(** Every single quote is immediately preceded by a backslash;
    [prev_bs] tells whether the character before [s] is a backslash. *)
Fixpoint squotes_escaped_from (prev_bs : bool) (s : jsstring) : bool :=
  match s with
  | [] => true
  | c :: t =>
      (negb (char_eqb c squote) || prev_bs)
      && squotes_escaped_from (char_eqb c backslash) t
  end.

(** Every whitespace character is a space that follows no other whitespace
    character; [prev_ws] tells whether the character before [s] is one. *)
Fixpoint ws_collapsed_from (prev_ws : bool) (s : jsstring) : bool :=
  match s with
  | [] => true
  | c :: t =>
      (if is_ws c then char_eqb c space && negb prev_ws else true)
      && ws_collapsed_from (is_ws c) t
  end.

Definition escaped (s : jsstring) : bool :=
  squotes_escaped_from false s && ws_collapsed_from false s.

(** The Prism variant seen as a state of the plain variant. *)
Definition plainRequest (r : RequestResponse.RequestCode)
  : RequestResponsePlain.RequestCode :=
  RequestResponsePlain.mkRequest
    (RequestResponse.language r) (RequestResponse.code r) (RequestResponse.id r).

Definition plainState (s : RequestResponse.State) : RequestResponsePlain.State :=
  RequestResponsePlain.mkState
    (RequestResponse.method s)
    (map plainRequest (RequestResponse.requests s))
    (RequestResponse.response s)
    (RequestResponse.copied s).

(** ** What a serializer may read *)

(** The content of a form: what its fields hold, apart from entry ids,
    stored error texts, the [copied] indicator, the highlighted markup,
    and a See Also entry whose checkbox is not ticked. *)
Inductive Content :=
| DocFooterContent (links : list (jsstring * jsstring))
    (seeAlso : option (jsstring * jsstring))
| RequestResponseContent (method : jsstring)
    (requests : list (jsstring * jsstring)) (response : jsstring)
| ButtonListContent (items : list (jsstring * jsstring)).

Definition content (w : widget) : Content :=
  match w with
  | DocFooterW s =>
      DocFooterContent
        (map (fun l => (DocFooter.title l, DocFooter.url l)) (DocFooter.links s))
        (if DocFooter.showSeeAlso s
         then option_map (fun l => (DocFooter.title l, DocFooter.url l))
                (DocFooter.seeAlso s)
         else None)
  | RequestResponseW s =>
      RequestResponseContent
        (RequestResponse.method s)
        (map (fun r => (RequestResponse.language r, RequestResponse.code r))
             (RequestResponse.requests s))
        (RequestResponse.response s)
  | RequestResponsePlainW s =>
      RequestResponseContent
        (RequestResponsePlain.method s)
        (map (fun r => (RequestResponsePlain.language r, RequestResponsePlain.code r))
             (RequestResponsePlain.requests s))
        (RequestResponsePlain.response s)
  | ButtonListW s =>
      ButtonListContent
        (map (fun b => (ButtonList.label b, ButtonList.link b)) (ButtonList.items s))
  end.

(** ** Notions for the properties of the handlers *)

(** The stored [urlError] of a link is the validator's verdict on its
    [url], or the [url] is still the empty one the entry was created
    with, no error being stored yet. *)
Definition urlError_in_sync (l : DocFooter.RelatedLink) : Prop :=
  DocFooter.urlError l = Some (DocFooter.validateUrl (DocFooter.url l))
  \/ (DocFooter.url l = [] /\ DocFooter.urlError l = Some []).

Definition starts_with_ws (s : jsstring) : bool :=
  match s with
  | [] => false
  | c :: _ => is_ws c
  end.

Definition ends_with_ws (s : jsstring) : bool := starts_with_ws (rev s).

(** The actions of the button list other than a removal. *)
Definition keeps_entries (a : ButtonList.action) : bool :=
  match a with
  | ButtonList.RemoveItem _ => false
  | _ => true
  end.

(** The ids of the button list are the numerals [1] to [n], in order. *)
Definition numbered (s : ButtonList.State) : Prop :=
  map ButtonList.id (ButtonList.items s)
  = map toString (seq 1 (length (ButtonList.items s))).

(** The [copied] indicator of a widget and the callback of its timer. *)
Definition copiedFlag (w : widget) : bool :=
  match w with
  | DocFooterW s => DocFooter.copied s
  | RequestResponseW s => RequestResponse.copied s
  | RequestResponsePlainW s => RequestResponsePlain.copied s
  | ButtonListW s => ButtonList.copied s
  end.

Definition copiedTimeout (w : widget) : widget :=
  match w with
  | DocFooterW s => DocFooterW (DocFooter.copiedTimeout s)
  | RequestResponseW s => RequestResponseW (RequestResponse.copiedTimeout s)
  | RequestResponsePlainW s =>
      RequestResponsePlainW (RequestResponsePlain.copiedTimeout s)
  | ButtonListW s => ButtonListW (ButtonList.copiedTimeout s)
  end.

(** An action of the Prism variant as the same action of the plain variant. *)
Definition plainAction (a : RequestResponse.action) : RequestResponsePlain.action :=
  match a with
  | RequestResponse.SetMethod m => RequestResponsePlain.SetMethod m
  | RequestResponse.AddRequestBlock => RequestResponsePlain.AddRequestBlock
  | RequestResponse.RemoveRequestBlock i => RequestResponsePlain.RemoveRequestBlock i
  | RequestResponse.SelectLanguage i v => RequestResponsePlain.SelectLanguage i v
  | RequestResponse.EditCode i v => RequestResponsePlain.EditCode i v
  | RequestResponse.SetResponse v => RequestResponsePlain.SetResponse v
  | RequestResponse.Copy ok => RequestResponsePlain.Copy ok
  | RequestResponse.Timeout => RequestResponsePlain.Timeout
  end.

(* ================================================================== *)
(** * Properties *)
(* ================================================================== *)

(** ** Strings *)

Lemma string_eqb_nil_r (s : jsstring) : string_eqb s [] = true <-> s = [].
Proof. destruct s; simpl; split; congruence. Qed.

Lemma startsWith_iff (p : jsstring) :
  forall u, startsWith u p = true <-> has_prefix p u.
Proof.
  unfold has_prefix.
  induction p as [|c p IH]; intros u; simpl.
  - split; [intros _; now exists u | reflexivity].
  - destruct u as [|d u].
    + split; [discriminate | intros [x Hx]; discriminate].
    + rewrite andb_true_iff, IH. unfold char_eqb. rewrite N.eqb_eq.
      split.
      * intros [-> [x ->]]. now exists x.
      * intros [x Hx]. injection Hx as -> ->. split; [reflexivity | now exists x].
Qed.

(** ** The url validator *)

Lemma validateUrl_nil_iff (u : jsstring) :
  DocFooter.validateUrl u = [] <-> (u <> [] /\ has_prefix (lit "/docs") u).
Proof.
  unfold DocFooter.validateUrl.
  destruct u as [|c u]; simpl truthy; cbv iota.
  - split; [discriminate | intros [H _]; congruence].
  - simpl negb at 1. cbv iota.
    destruct (startsWith (c :: u) (lit "/docs")) eqn:E; simpl.
    + apply startsWith_iff in E. split; [intros _; split; [discriminate | exact E] | reflexivity].
    + split; [discriminate |].
      intros [_ H]. apply startsWith_iff in H. congruence.
Qed.

(** C4.  The url validator returns a non-empty error message exactly for
    the strings that are empty or do not start with the prefix [/docs];
    every string made of [/docs] and a suffix validates to the empty
    string. *)
Theorem validateUrl_error_iff :
  (forall u : jsstring, DocFooter.validateUrl u <> [] <-> invalid_url u)
  /\ (forall suffix : jsstring, DocFooter.validateUrl (lit "/docs" ++ suffix) = []).
Proof.
  split.
  - intros u. unfold invalid_url. rewrite validateUrl_nil_iff. split.
    + intros H. destruct u as [|c u]; [now left | right].
      intros Hp. apply H. split; [discriminate | exact Hp].
    + intros [-> | Hn] [Hu Hp]; [now apply Hu | now apply Hn].
  - intros suffix. apply validateUrl_nil_iff. split.
    + discriminate.
    + now exists suffix.
Qed.

Lemma validateUrl_error_iff_witness :
  DocFooter.validateUrl (lit "/guide") <> []
  /\ DocFooter.validateUrl (lit "/docs/guide") = [].
Proof.
  split.
  - apply (proj1 validateUrl_error_iff). right.
    intros [x Hx]. vm_compute in Hx. discriminate.
  - exact (proj2 validateUrl_error_iff (lit "/guide")).
Defined.

(** ** The docfooter example *)

(** C1, as the specification states it, fails: the serializer joins the
    JSON text without any space inside the braces, so the output differs
    from the spaced string of the example. *)
Lemma docfooter_guide_not_spaced :
  DocFooter.generateMarkdoc
    (DocFooter.mkState
       [DocFooter.mkLink (lit "Guide") (lit "/docs/guide") (Some [])]
       None false false)
  <> lit "{% docfooter relatedLinks=[{ 'title': 'Guide', 'url': '/docs/guide' }] /%}".
Proof. vm_compute. discriminate. Qed.

(** C1, amended.  A single Link Entry with title [Guide] and url
    [/docs/guide], with no See Also link, serializes to the compact tag
    [{% docfooter relatedLinks=[{'title':'Guide','url':'/docs/guide'}] /%}],
    whatever the stored [urlError] and the [copied] flag are. *)
Theorem docfooter_guide_compact :
  forall (e : option jsstring) (c : bool),
    DocFooter.generateMarkdoc
      (DocFooter.mkState
         [DocFooter.mkLink (lit "Guide") (lit "/docs/guide") e] None c false)
    = lit "{% docfooter relatedLinks=[{'title':'Guide','url':'/docs/guide'}] /%}".
Proof. intros e c. vm_compute. reflexivity. Qed.

(** ** Escaping in the serializers *)

Lemma replace_squote_escaped (s : jsstring) :
  forall p, squotes_escaped_from p (replace_char squote [backslash; squote] s) = true.
Proof.
  induction s as [|c s IH]; intros p; simpl; [reflexivity |].
  destruct (char_eqb c squote) eqn:E; simpl.
  - apply IH.
  - rewrite E. simpl. apply IH.
Qed.

Lemma replace_newline_keeps_squotes (s : jsstring) :
  forall p, squotes_escaped_from p s = true ->
            squotes_escaped_from p (replace_char newline (lit "\n") s) = true.
Proof.
  induction s as [|c s IH]; intros p H; simpl in *; [reflexivity |].
  apply andb_true_iff in H as [H1 H2].
  destruct (char_eqb c newline) eqn:E; simpl.
  - apply N.eqb_eq in E. subst c. apply IH. exact H2.
  - rewrite H1. simpl. apply IH. exact H2.
Qed.

Lemma is_ws_not_backslash (c : char) : is_ws c = true -> char_eqb c backslash = false.
Proof.
  intros H. apply N.eqb_neq. intros ->. vm_compute in H. discriminate.
Qed.

Lemma replace_ws_keeps_squotes (s : jsstring) :
  forall p f, (f = true -> p = false) ->
    squotes_escaped_from p s = true ->
    squotes_escaped_from p (replace_ws_runs_from f [space] s) = true.
Proof.
  induction s as [|c s IH]; intros p f Hf H; simpl in *; [reflexivity |].
  apply andb_true_iff in H as [H1 H2].
  destruct (is_ws c) eqn:W.
  - rewrite (is_ws_not_backslash c W) in H2.
    destruct f; simpl.
    + rewrite (Hf eq_refl). apply IH; [reflexivity | exact H2].
    + apply IH; [reflexivity | exact H2].
  - simpl. rewrite H1. simpl. apply IH; [discriminate | exact H2].
Qed.

Lemma replace_ws_collapsed (s : jsstring) :
  forall f, ws_collapsed_from f (replace_ws_runs_from f [space] s) = true.
Proof.
  induction s as [|c s IH]; intros f; simpl; [reflexivity |].
  destruct (is_ws c) eqn:W.
  - destruct f; simpl; apply IH.
  - simpl. rewrite W. simpl. apply IH.
Qed.

Lemma ws_collapsed_no_newline (s : jsstring) :
  forall f, ws_collapsed_from f s = true -> ~ In newline s.
Proof.
  induction s as [|c s IH]; intros f H; simpl in *; [tauto |].
  apply andb_true_iff in H as [H1 H2].
  intros [-> | Hin].
  - vm_compute in H1. discriminate.
  - exact (IH _ H2 Hin).
Qed.

(** C2, as the specification states it, fails for the button list: a
    label with a single quote and a run of two spaces is interpolated as
    it is, so the serialized output of a valid state is not escaped. *)
Lemma buttonlist_value_not_escaped :
  let s := ButtonList.mkState
             [ButtonList.mkItem (lit "it's  ok") (lit "/docs") (lit "1")] false in
  ButtonList.hasErrors s = false
  /\ ButtonList.generateMarkdoc s
     = lit "{% buttonlist items=[ { label: " ++ quoted (lit "it's  ok")
       ++ lit ", link: " ++ quoted (lit "/docs") ++ lit " } ] /%}"
  /\ escaped (ButtonList.generateMarkdoc s) = false.
Proof. vm_compute. repeat split. Qed.

(** The request/response serializer leaves a double quote of a value
    without a backslash. *)
Example stringifyCode_keeps_dquote :
  RequestResponse.stringifyCode (lit "a" ++ [dquote] ++ lit "b")
  = lit "a" ++ [dquote] ++ lit "b".
Proof. reflexivity. Qed.

(** C2, amended.  Only the request/response serializer escapes: the
    value it interpolates for a code or response field is
    [stringifyCode] of the field, in which every single quote follows a
    backslash, no newline is left and every whitespace character is one
    space that follows no other whitespace; the button-list serializer
    interpolates label and link as they are. *)
Theorem requestresponse_escapes_buttonlist_verbatim :
  (forall c : jsstring,
      escaped (RequestResponse.stringifyCode c) = true
      /\ ~ In newline (RequestResponse.stringifyCode c))
  /\ (forall s, RequestResponse.hasErrors s = false ->
        RequestResponse.generateMarkdoc s
        = lit "{% requestresponse method=" ++ quoted (RequestResponse.method s)
          ++ lit " requests=["
          ++ join (lit ",")
               (map (fun r => lit "{language: " ++ quoted (RequestResponse.language r)
                              ++ lit ", code: "
                              ++ quoted (RequestResponse.stringifyCode
                                           (RequestResponse.code r))
                              ++ lit "}")
                    (RequestResponse.requests s))
          ++ lit "] response="
          ++ quoted (RequestResponse.stringifyCode (RequestResponse.response s))
          ++ lit " /%}")
  /\ (forall s, ButtonList.hasErrors s = false ->
        ButtonList.generateMarkdoc s
        = lit "{% buttonlist items=[ "
          ++ join (lit ", ")
               (map (fun b => lit "{ label: " ++ quoted (ButtonList.label b)
                              ++ lit ", link: " ++ quoted (ButtonList.link b)
                              ++ lit " }")
                    (ButtonList.items s))
          ++ lit " ] /%}").
Proof.
  split; [| split].
  - intros c.
    assert (E : escaped (RequestResponse.stringifyCode c) = true).
    { unfold escaped, RequestResponse.stringifyCode, replace_ws_runs.
      apply andb_true_iff. split.
      - apply replace_ws_keeps_squotes; [discriminate |].
        apply replace_newline_keeps_squotes, replace_squote_escaped.
      - apply replace_ws_collapsed. }
    split; [exact E |].
    unfold escaped in E. apply andb_true_iff in E as [_ E].
    exact (ws_collapsed_no_newline _ _ E).
  - intros s H. unfold RequestResponse.generateMarkdoc.
    unfold RequestResponse.hasErrors in H. rewrite H. reflexivity.
  - intros s H. unfold ButtonList.generateMarkdoc.
    unfold ButtonList.hasErrors in H. rewrite H. reflexivity.
Qed.

Lemma requestresponse_escapes_buttonlist_verbatim_witness :
  let rr := RequestResponse.mkState (lit "GET")
              [RequestResponse.mkRequest (lit "cURL") (lit " curl  'x' ") (lit "1")]
              (lit "it's") false [] in
  let bl := ButtonList.mkState
              [ButtonList.mkItem (lit "it's  ok") (lit "/docs") (lit "1")] false in
  RequestResponse.hasErrors rr = false
  /\ ButtonList.hasErrors bl = false
  /\ RequestResponse.generateMarkdoc rr
     = lit "{% requestresponse method=" ++ quoted (lit "GET")
       ++ lit " requests=[{language: " ++ quoted (lit "cURL")
       ++ lit ", code: " ++ quoted (lit "curl \'x\'")
       ++ lit "}] response=" ++ quoted (lit "it\'s") ++ lit " /%}"
  /\ ButtonList.generateMarkdoc bl
     = lit "{% buttonlist items=[ { label: " ++ quoted (lit "it's  ok")
       ++ lit ", link: " ++ quoted (lit "/docs") ++ lit " } ] /%}".
Proof.
  intros rr bl.
  assert (Hr : RequestResponse.hasErrors rr = false) by reflexivity.
  assert (Hb : ButtonList.hasErrors bl = false) by reflexivity.
  split; [exact Hr | split; [exact Hb |]].
  destruct requestresponse_escapes_buttonlist_verbatim as [_ [R B]].
  split.
  - rewrite (R rr Hr). reflexivity.
  - rewrite (B bl Hb). reflexivity.
Defined.

(** ** Validation gates the serializer and the clipboard *)

Lemma existsb_of_Exists {A} {P : A -> Prop} {f : A -> bool} {l : list A} :
  (forall x, P x -> f x = true) -> Exists P l -> existsb f l = true.
Proof.
  intros Hf H. induction H as [x l Hx | x l _ IH]; simpl.
  - now rewrite (Hf x Hx).
  - rewrite IH. apply orb_true_r.
Qed.

Lemma invalid_link_has_error {l : DocFooter.RelatedLink} :
  invalid_link l -> DocFooter.linkHasError l = true.
Proof.
  unfold invalid_link, empty_field, DocFooter.linkHasError.
  intros [Ht | Hu].
  - rewrite Ht. apply orb_true_r.
  - destruct (string_eqb (DocFooter.validateUrl (DocFooter.url l)) []) eqn:E;
      [| reflexivity].
    apply string_eqb_nil_r, validateUrl_nil_iff in E. destruct E as [Hne Hp].
    destruct Hu as [Hu | Hu]; [now apply Hne in Hu | now apply Hu in Hp].
Qed.

Lemma invalid_has_errors (w : widget) : some_field_invalid w -> hasErrors w = true.
Proof.
  destruct w as [s | s | s | s]; simpl; unfold empty_field.
  - unfold DocFooter.hasErrors. intros [H | [Hshow [sa [Hsa Hinv]]]].
    + rewrite (existsb_of_Exists (@invalid_link_has_error) H). reflexivity.
    + rewrite Hshow, Hsa, (invalid_link_has_error Hinv). apply orb_true_r.
  - unfold RequestResponse.hasErrors. intros [H | H].
    + erewrite existsb_of_Exists; [reflexivity | | exact H].
      intros x Hx. simpl in Hx. now rewrite Hx.
    + rewrite H. apply orb_true_r.
  - unfold RequestResponsePlain.hasErrors. intros [H | H].
    + erewrite existsb_of_Exists; [reflexivity | | exact H].
      intros x Hx. simpl in Hx. now rewrite Hx.
    + rewrite H. apply orb_true_r.
  - unfold ButtonList.hasErrors. intros H.
    eapply existsb_of_Exists; [| exact H].
    intros x [Hx | Hx]; rewrite Hx; [reflexivity | apply orb_true_r].
Qed.

Lemma errors_give_placeholder (w : widget) :
  hasErrors w = true -> serialize w = placeholder w.
Proof.
  destruct w as [s | s | s | s]; simpl; intros H.
  - unfold DocFooter.generateMarkdoc. now rewrite H.
  - unfold RequestResponse.generateMarkdoc.
    unfold RequestResponse.hasErrors in H. now rewrite H.
  - unfold RequestResponsePlain.generateMarkdoc.
    unfold RequestResponsePlain.hasErrors in H. now rewrite H.
  - unfold ButtonList.generateMarkdoc.
    unfold ButtonList.hasErrors in H. now rewrite H.
Qed.

(** C5.  In every widget state in which some required field of some entry
    is invalid, the serializer returns the widget's fixed placeholder
    comment and the error predicate that disables the copy button holds. *)
Theorem invalid_field_gives_placeholder (w : widget) :
  some_field_invalid w -> serialize w = placeholder w /\ hasErrors w = true.
Proof.
  intros H. apply invalid_has_errors in H.
  split; [now apply errors_give_placeholder | exact H].
Qed.

(** A Button Entry with an empty label. *)
Lemma invalid_field_gives_placeholder_witness :
  let w := ButtonListW
             (ButtonList.mkState [ButtonList.mkItem [] (lit "/docs") (lit "1")] false) in
  some_field_invalid w
  /\ serialize w = lit "// Please fill in all fields for each button"
  /\ hasErrors w = true.
Proof.
  intros w.
  assert (H : some_field_invalid w).
  { simpl. apply Exists_cons_hd. left. reflexivity. }
  split; [exact H |].
  exact (invalid_field_gives_placeholder w H).
Defined.

(** C6.  While the error predicate holds, the copy action writes nothing
    to the clipboard (it has no effect at all) and returns the state
    unchanged; otherwise its only clipboard write is the serialized
    string, whether or not the clipboard accepts it. *)
Theorem copy_gated_by_validation (w : widget) (clipboard_ok : bool) :
  (hasErrors w = true -> handleCopy clipboard_ok w = (w, []))
  /\ (hasErrors w = false ->
      clipboard_writes (snd (handleCopy clipboard_ok w)) = [serialize w]).
Proof.
  destruct w as [s | s | s | s]; simpl;
    [ unfold DocFooter.handleCopy
    | unfold RequestResponse.handleCopy, RequestResponse.hasErrors
    | unfold RequestResponsePlain.handleCopy, RequestResponsePlain.hasErrors
    | unfold ButtonList.handleCopy, ButtonList.hasErrors ];
    (split; intros H; rewrite H; [reflexivity |]);
    destruct clipboard_ok; reflexivity.
Qed.

Lemma copy_gated_by_validation_witness :
  let bad := ButtonListW
               (ButtonList.mkState [ButtonList.mkItem [] (lit "/docs") (lit "1")] false) in
  let good := DocFooterW
                (DocFooter.mkState
                   [DocFooter.mkLink (lit "Guide") (lit "/docs/guide") (Some [])]
                   None false false) in
  (hasErrors bad = true /\ handleCopy true bad = (bad, []))
  /\ (hasErrors good = false
      /\ clipboard_writes (snd (handleCopy true good))
         = [lit "{% docfooter relatedLinks=[{'title':'Guide','url':'/docs/guide'}] /%}"]).
Proof.
  intros bad good. split.
  - assert (H : hasErrors bad = true) by reflexivity.
    split; [exact H |].
    exact (proj1 (copy_gated_by_validation bad true) H).
  - assert (H : hasErrors good = false) by reflexivity.
    split; [exact H |].
    rewrite (proj2 (copy_gated_by_validation good true) H). reflexivity.
Defined.

(** ** Serialization reads the content of the form only *)

Lemma map_agree {A1 A2 B C} (p1 : A1 -> B) (p2 : A2 -> B)
    (g1 : A1 -> C) (g2 : A2 -> C) :
  (forall x y, p1 x = p2 y -> g1 x = g2 y) ->
  forall l1 l2, map p1 l1 = map p2 l2 -> map g1 l1 = map g2 l2.
Proof.
  intros Hg. induction l1 as [|x l1 IH]; intros [|y l2] H; simpl in *;
    try discriminate; [reflexivity |].
  injection H as Hx Hl. f_equal; [now apply Hg | now apply IH].
Qed.

Lemma existsb_agree {A1 A2 B} (p1 : A1 -> B) (p2 : A2 -> B)
    (f1 : A1 -> bool) (f2 : A2 -> bool) :
  (forall x y, p1 x = p2 y -> f1 x = f2 y) ->
  forall l1 l2, map p1 l1 = map p2 l2 -> existsb f1 l1 = existsb f2 l2.
Proof.
  intros Hf. induction l1 as [|x l1 IH]; intros [|y l2] H; simpl in *;
    try discriminate; [reflexivity |].
  injection H as Hx Hl. f_equal; [now apply Hf | now apply IH].
Qed.

Lemma docfooter_content_decides (s1 s2 : DocFooter.State) :
  content (DocFooterW s1) = content (DocFooterW s2) ->
  DocFooter.hasErrors s1 = DocFooter.hasErrors s2
  /\ DocFooter.generateMarkdoc s1 = DocFooter.generateMarkdoc s2.
Proof.
  simpl. intros H. injection H as Hl Hs.
  assert (E1 : existsb DocFooter.linkHasError (DocFooter.links s1)
               = existsb DocFooter.linkHasError (DocFooter.links s2)).
  { revert Hl. apply existsb_agree. intros x y E. injection E as Et Eu.
    unfold DocFooter.linkHasError. now rewrite Et, Eu. }
  assert (E2 : map (fun l => DocFooter.linkObject (DocFooter.title l) (DocFooter.url l))
                   (DocFooter.links s1)
               = map (fun l => DocFooter.linkObject (DocFooter.title l) (DocFooter.url l))
                   (DocFooter.links s2)).
  { revert Hl. apply map_agree. intros x y E. injection E as Et Eu.
    now rewrite Et, Eu. }
  unfold DocFooter.generateMarkdoc, DocFooter.hasErrors. rewrite E1, E2.
  destruct (DocFooter.showSeeAlso s1), (DocFooter.showSeeAlso s2),
    (DocFooter.seeAlso s1) as [a|], (DocFooter.seeAlso s2) as [b|];
    simpl in Hs; try discriminate; try (split; reflexivity).
  injection Hs as Et Eu. unfold DocFooter.linkHasError. rewrite Et, Eu.
  split; reflexivity.
Qed.

Lemma buttonlist_content_decides (s1 s2 : ButtonList.State) :
  content (ButtonListW s1) = content (ButtonListW s2) ->
  ButtonList.hasErrors s1 = ButtonList.hasErrors s2
  /\ ButtonList.generateMarkdoc s1 = ButtonList.generateMarkdoc s2.
Proof.
  simpl. intros H. injection H as Hl.
  assert (E1 : ButtonList.hasErrors s1 = ButtonList.hasErrors s2).
  { unfold ButtonList.hasErrors. revert Hl. apply existsb_agree.
    intros x y E. injection E as El Ek. now rewrite El, Ek. }
  assert (E2 : map (fun item => lit "{ label: " ++ quoted (ButtonList.label item)
                                ++ lit ", link: " ++ quoted (ButtonList.link item)
                                ++ lit " }") (ButtonList.items s1)
               = map (fun item => lit "{ label: " ++ quoted (ButtonList.label item)
                                  ++ lit ", link: " ++ quoted (ButtonList.link item)
                                  ++ lit " }") (ButtonList.items s2)).
  { revert Hl. apply map_agree. intros x y E. injection E as El Ek.
    now rewrite El, Ek. }
  split; [exact E1 |].
  unfold ButtonList.generateMarkdoc. unfold ButtonList.hasErrors in E1.
  now rewrite E1, E2.
Qed.

Section RequestContent.

(** The two variants have request records of their own; a request list of
    either is read through its language and code projections. *)
Context {R1 R2 : Type}
  (language1 code1 : R1 -> jsstring) (language2 code2 : R2 -> jsstring)
  (stringify1 stringify2 : jsstring -> jsstring)
  (l1 : list R1) (l2 : list R2).

Hypothesis same_stringify : forall c, stringify1 c = stringify2 c.

Hypothesis same_requests :
  map (fun r => (language1 r, code1 r)) l1 = map (fun r => (language2 r, code2 r)) l2.

Lemma requests_code_missing :
  existsb (fun req => negb (truthy (code1 req))) l1
  = existsb (fun req => negb (truthy (code2 req))) l2.
Proof.
  revert same_requests. apply existsb_agree.
  intros x y E. injection E as _ Ec. now rewrite Ec.
Qed.

Lemma requests_rendered :
  map (fun req => lit "{language: " ++ quoted (language1 req)
                  ++ lit ", code: " ++ quoted (stringify1 (code1 req))
                  ++ lit "}") l1
  = map (fun req => lit "{language: " ++ quoted (language2 req)
                    ++ lit ", code: " ++ quoted (stringify2 (code2 req))
                    ++ lit "}") l2.
Proof.
  revert same_requests. apply map_agree.
  intros x y E. injection E as El Ec. now rewrite El, Ec, same_stringify.
Qed.

End RequestContent.

Lemma copy_writes_serialized (w : widget) (clipboard_ok : bool) :
  hasErrors w = false ->
  clipboard_writes (snd (handleCopy clipboard_ok w)) = [serialize w].
Proof.
  destruct w as [s | s | s | s]; simpl;
    [ unfold DocFooter.handleCopy
    | unfold RequestResponse.handleCopy, RequestResponse.hasErrors
    | unfold RequestResponsePlain.handleCopy, RequestResponsePlain.hasErrors
    | unfold ButtonList.handleCopy, ButtonList.hasErrors ];
    intros H; rewrite H; destruct clipboard_ok; reflexivity.
Qed.

Ltac same_requests_case stringify1 stringify2 :=
  let H := fresh "H" in
  let Hm := fresh "Hm" in let Hl := fresh "Hl" in let Hr := fresh "Hr" in
  simpl; intros H; injection H as Hm Hl Hr;
  unfold RequestResponse.generateMarkdoc, RequestResponse.hasErrors,
    RequestResponsePlain.generateMarkdoc, RequestResponsePlain.hasErrors;
  rewrite Hm, Hr, (requests_code_missing _ _ _ _ _ _ Hl),
    (requests_rendered _ _ _ _ stringify1 stringify2 _ _
       (fun c => eq_refl) Hl);
  split; reflexivity.

Lemma content_decides (w1 w2 : widget) :
  content w1 = content w2 ->
  hasErrors w1 = hasErrors w2 /\ serialize w1 = serialize w2.
Proof.
  destruct w1 as [s1 | s1 | s1 | s1], w2 as [s2 | s2 | s2 | s2];
    try (simpl; discriminate).
  - apply docfooter_content_decides.
  - same_requests_case RequestResponse.stringifyCode RequestResponse.stringifyCode.
  - same_requests_case RequestResponse.stringifyCode RequestResponsePlain.stringifyCode.
  - same_requests_case RequestResponsePlain.stringifyCode RequestResponse.stringifyCode.
  - same_requests_case RequestResponsePlain.stringifyCode
      RequestResponsePlain.stringifyCode.
  - apply buttonlist_content_decides.
Qed.

(** C7.  Serialization is deterministic and reads nothing but the
    content of the form.  Two valid states of a widget that hold the same
    content, equal states in particular, serialize to the identical
    string, also when they differ in what lies outside the content: the
    entry ids, the stored error texts, the [copied] indicator, the
    highlighted markup, a See Also entry whose checkbox is not ticked, or
    the variant of the request/response widget.  Validity is decided by
    the content too, and the copy action of either state writes that
    same string whatever the clipboard answers. *)
Theorem serialize_deterministic (w1 w2 : widget) :
  hasErrors w1 = false -> content w1 = content w2 ->
  hasErrors w2 = false
  /\ serialize w1 = serialize w2
  /\ forall ok1 ok2 : bool,
       clipboard_writes (snd (handleCopy ok1 w1)) = [serialize w2]
       /\ clipboard_writes (snd (handleCopy ok2 w2)) = [serialize w1].
Proof.
  intros V C. destruct (content_decides w1 w2 C) as [E S].
  assert (V2 : hasErrors w2 = false) by (now rewrite <- E).
  split; [exact V2 | split; [exact S |]].
  intros ok1 ok2. split.
  - rewrite <- S. now apply copy_writes_serialized.
  - rewrite S. now apply copy_writes_serialized.
Qed.

(** Two states that differ in the stored error, the [copied] indicator and
    an unticked See Also entry. *)
Lemma serialize_deterministic_witness :
  let w1 := DocFooterW
              (DocFooter.mkState
                 [DocFooter.mkLink (lit "Guide") (lit "/docs/guide") (Some [])]
                 None false false) in
  let w2 := DocFooterW
              (DocFooter.mkState
                 [DocFooter.mkLink (lit "Guide") (lit "/docs/guide") None]
                 (Some (DocFooter.mkLink (lit "API") [] None)) true false) in
  w1 <> w2
  /\ hasErrors w1 = false
  /\ content w1 = content w2
  /\ serialize w2
     = lit "{% docfooter relatedLinks=[{'title':'Guide','url':'/docs/guide'}] /%}"
  /\ clipboard_writes (snd (handleCopy false w2)) = [serialize w1].
Proof.
  intros w1 w2.
  assert (V : hasErrors w1 = false) by reflexivity.
  assert (C : content w1 = content w2) by reflexivity.
  destruct (serialize_deterministic w1 w2 V C) as [_ [S W]].
  split; [discriminate |]. split; [exact V |]. split; [exact C |].
  split; [rewrite <- S; reflexivity | exact (proj2 (W true false))].
Defined.

(** ** The two request/response variants *)

Lemma plain_code_missing (l : list RequestResponse.RequestCode) :
  existsb (fun req => negb (truthy (RequestResponsePlain.code req)))
          (map plainRequest l)
  = existsb (fun req => negb (truthy (RequestResponse.code req))) l.
Proof.
  induction l as [|r l IH]; simpl; [reflexivity | now rewrite IH].
Qed.

Lemma plain_hasErrors (s : RequestResponse.State) :
  RequestResponsePlain.hasErrors (plainState s) = RequestResponse.hasErrors s.
Proof.
  unfold RequestResponsePlain.hasErrors, RequestResponse.hasErrors. simpl.
  now rewrite plain_code_missing.
Qed.

(** C8.  The Prism-highlighting variant and the plain variant have the
    same core logic: on every code string their [stringifyCode] agree, and
    on every method, request list and response (whatever the highlighting
    state) their [generateMarkdoc] and [hasErrors] agree. *)
Theorem requestresponse_variants_agree :
  (forall c : jsstring,
      RequestResponse.stringifyCode c = RequestResponsePlain.stringifyCode c)
  /\ (forall s : RequestResponse.State,
         RequestResponse.generateMarkdoc s
         = RequestResponsePlain.generateMarkdoc (plainState s))
  /\ (forall s : RequestResponse.State,
         RequestResponse.hasErrors s = RequestResponsePlain.hasErrors (plainState s)).
Proof.
  split; [reflexivity | split].
  - intros s.
    unfold RequestResponse.generateMarkdoc, RequestResponsePlain.generateMarkdoc.
    simpl RequestResponsePlain.requests. simpl RequestResponsePlain.response.
    simpl RequestResponsePlain.method.
    rewrite plain_code_missing, map_map. reflexivity.
  - intros s. symmetry. apply plain_hasErrors.
Qed.

(** ** Entry identifiers, removal and edits *)

Lemma digits_decimal (u : Decimal.uint) :
  digits u = lit (DecimalString.NilEmpty.string_of_uint u).
Proof.
  induction u; simpl; try reflexivity; unfold lit in *; simpl; now f_equal.
Qed.

Lemma buttonlist_run_reachable (acts : list ButtonList.action) :
  forall s, ButtonList.reachable s -> ButtonList.reachable (ButtonList.run acts s).
Proof.
  induction acts as [|a acts IH]; intros s H; simpl; [exact H |].
  apply IH. now constructor.
Qed.

Lemma requestresponse_run_reachable P J (acts : list RequestResponse.action) :
  forall s s', RequestResponse.reachable P J s ->
               RequestResponse.run P J acts s = Some s' ->
               RequestResponse.reachable P J s'.
Proof.
  induction acts as [|a acts IH]; intros s s' H R; simpl in R.
  - injection R as <-. exact H.
  - destruct (RequestResponse.dispatch P J a s) as [s1|] eqn:D; [| discriminate].
    apply (IH s1 s'); [| exact R]. exact (RequestResponse.reachable_step P J a s s1 H D).
Qed.

Lemma plain_run_reachable (acts : list RequestResponsePlain.action) :
  forall s, RequestResponsePlain.reachable s ->
            RequestResponsePlain.reachable (RequestResponsePlain.run acts s).
Proof.
  induction acts as [|a acts IH]; intros s H; simpl; [exact H |].
  apply IH. now constructor.
Qed.

(** The guard of the id-based remove handlers. *)
Lemma remove_noop_at_one :
  (forall i s, length (ButtonList.items s) = 1 -> ButtonList.removeItem i s = s)
  /\ (forall i s, length (RequestResponse.requests s) = 1 ->
                  RequestResponse.removeRequestBlock i s = s)
  /\ (forall i s, length (RequestResponsePlain.requests s) = 1 ->
                  RequestResponsePlain.removeRequestBlock i s = s).
Proof.
  repeat split; intros i s H;
    [ unfold ButtonList.removeItem
    | unfold RequestResponse.removeRequestBlock
    | unfold RequestResponsePlain.removeRequestBlock ];
    now rewrite H.
Qed.

(** The docfooter handler has no guard of its own: its remove button is
    disabled while a single link is left. *)
Example handleRemoveLink_unguarded :
  DocFooter.links (DocFooter.handleRemoveLink 0 DocFooter.init) = []
  /\ DocFooter.dispatch (DocFooter.RemoveLink 0) DocFooter.init = DocFooter.init.
Proof. split; reflexivity. Qed.

Lemma filteri_drop_index_length {A} (index : nat) (l : list A) :
  forall k, length l <= S (length (filteri_from (fun i _ => negb (i =? index)) k l)).
Proof.
  induction l as [|x l IH]; intros k; simpl; [lia |].
  destruct (k =? index) eqn:E; simpl.
  - assert (K : forall (m : list A) j, index < j ->
                filteri_from (fun i _ => negb (i =? index)) j m = m).
    { induction m as [|y m IHm]; intros j Hj; simpl; [reflexivity |].
      destruct (j =? index) eqn:Ej; [apply Nat.eqb_eq in Ej; lia |].
      simpl. f_equal. apply IHm. lia. }
    apply Nat.eqb_eq in E. rewrite K by lia. lia.
  - specialize (IH (S k)). lia.
Qed.

Lemma mapi_from_length {A B} (f : nat -> A -> B) (l : list A) :
  forall k, length (mapi_from f k l) = length l.
Proof. induction l as [|x l IH]; intros k; simpl; [reflexivity | now rewrite IH]. Qed.

Lemma mapi_from_nth_error {A B} (f : nat -> A -> B) (l : list A) :
  forall k j, nth_error (mapi_from f k l) j = option_map (f (k + j)) (nth_error l j).
Proof.
  induction l as [|x l IH]; intros k j; destruct j; simpl; try reflexivity.
  - now rewrite Nat.add_0_r.
  - rewrite IH. now rewrite Nat.add_succ_r.
Qed.

(** The docfooter widget keeps at least one link in every reachable state. *)
Lemma docfooter_reachable_nonempty (s : DocFooter.State) :
  DocFooter.reachable s -> 1 <= length (DocFooter.links s).
Proof.
  induction 1 as [|a s _ IH]; [simpl; lia |].
  destruct a; simpl.
  - rewrite length_app. simpl. lia.
  - destruct (length (DocFooter.links s) =? 1) eqn:E; [exact IH |].
    apply Nat.eqb_neq in E. simpl. unfold filteri.
    pose proof (filteri_drop_index_length index (DocFooter.links s) 0). lia.
  - unfold mapi. now rewrite mapi_from_length.
  - destruct (DocFooter.showSeeAlso s); exact IH.
  - unfold DocFooter.toggleSeeAlso. destruct (DocFooter.showSeeAlso s); exact IH.
  - unfold DocFooter.handleCopy.
    destruct (DocFooter.hasErrors s); [exact IH |].
    destruct clipboard_ok; exact IH.
  - exact IH.
Qed.

(** What the edit handlers do preserve: the length of the list, the
    entries with another id (id-based edits), the entries at another index
    (index-based edits). *)
Lemma updateItem_frame (i : jsstring) (f : ButtonList.field) (v : jsstring)
    (s : ButtonList.State) :
  length (ButtonList.items (ButtonList.updateItem i f v s))
  = length (ButtonList.items s)
  /\ forall j b, nth_error (ButtonList.items s) j = Some b ->
                 string_eqb (ButtonList.id b) i = false ->
                 nth_error (ButtonList.items (ButtonList.updateItem i f v s)) j = Some b.
Proof.
  simpl. split; [apply length_map |].
  intros j b Hj Hb. rewrite nth_error_map, Hj. simpl. now rewrite Hb.
Qed.

Lemma updateRequest_frame (i : jsstring) (f : RequestResponse.field) (v : jsstring)
    (s : RequestResponse.State) :
  length (RequestResponse.requests (RequestResponse.updateRequest i f v s))
  = length (RequestResponse.requests s)
  /\ forall j r, nth_error (RequestResponse.requests s) j = Some r ->
                 string_eqb (RequestResponse.id r) i = false ->
                 nth_error (RequestResponse.requests
                              (RequestResponse.updateRequest i f v s)) j = Some r.
Proof.
  simpl. split; [apply length_map |].
  intros j r Hj Hr. rewrite nth_error_map, Hj. simpl. now rewrite Hr.
Qed.

Lemma handleLinkChange_frame (index : nat) (f : DocFooter.field) (v : jsstring)
    (s : DocFooter.State) :
  length (DocFooter.links (DocFooter.handleLinkChange index f v s))
  = length (DocFooter.links s)
  /\ forall j, j <> index ->
               nth_error (DocFooter.links (DocFooter.handleLinkChange index f v s)) j
               = nth_error (DocFooter.links s) j.
Proof.
  simpl. unfold mapi. split; [apply mapi_from_length |].
  intros j Hj. rewrite mapi_from_nth_error. simpl.
  apply Nat.eqb_neq in Hj. rewrite Hj.
  now destruct (nth_error (DocFooter.links s) j).
Qed.

Lemma highlightEffect_keeps_requests P J (s : RequestResponse.State) :
  match RequestResponse.highlightEffect P J s with
  | Some s' =>
      RequestResponse.method s' = RequestResponse.method s
      /\ RequestResponse.requests s' = RequestResponse.requests s
      /\ RequestResponse.response s' = RequestResponse.response s
      /\ RequestResponse.copied s' = RequestResponse.copied s
  | None => True
  end.
Proof.
  unfold RequestResponse.highlightEffect.
  destruct (RequestResponse.highlightRequests _ _ _); [| exact I].
  destruct (RequestResponse.highlightResponse _ _ _ _); [| exact I].
  repeat split.
Qed.

Lemma dispatch_keeps_requests P J (a : RequestResponse.action)
    (s : RequestResponse.State) :
  match RequestResponse.dispatch P J a s with
  | Some s' =>
      RequestResponse.requests s'
      = RequestResponse.requests (RequestResponse.handle a s)
  | None => True
  end.
Proof.
  unfold RequestResponse.dispatch.
  destruct (RequestResponse.setsDependencies a s); [| reflexivity].
  pose proof (highlightEffect_keeps_requests P J (RequestResponse.handle a s)) as K.
  destruct (RequestResponse.highlightEffect P J (RequestResponse.handle a s));
    [apply K | exact I].
Qed.

(** C9.  The identifier an add action generates is the decimal string of
    the current list length plus one, so identifiers are not unique: after
    add, remove of entry [1], add, a reachable state holds two entries with
    the id [2], and one remove-by-id invocation deletes both.  In the
    request/response widget the run goes through whatever Prism and
    [JSON.parse] do, no code being there to highlight. *)
Theorem sequential_ids_collide :
  (forall s,
      ButtonList.items (ButtonList.addItem s)
      = ButtonList.items s
        ++ [ButtonList.mkItem [] []
              (lit (DecimalString.NilEmpty.string_of_uint
                      (Nat.to_uint (length (ButtonList.items s) + 1))))])
  /\ (forall s,
         RequestResponse.requests (RequestResponse.addRequestBlock s)
         = RequestResponse.requests s
           ++ [RequestResponse.mkRequest (lit "cURL") []
                 (lit (DecimalString.NilEmpty.string_of_uint
                         (Nat.to_uint (length (RequestResponse.requests s) + 1))))])
  /\ (let s := ButtonList.run
                 [ButtonList.AddItem; ButtonList.RemoveItem (lit "1");
                  ButtonList.AddItem] ButtonList.init in
      ButtonList.reachable s
      /\ map ButtonList.id (ButtonList.items s) = [lit "2"; lit "2"]
      /\ ButtonList.items (ButtonList.removeItem (lit "2") s) = [])
  /\ (forall Prism_highlight prettyJSON,
         exists s,
           RequestResponse.run Prism_highlight prettyJSON
             [RequestResponse.AddRequestBlock;
              RequestResponse.RemoveRequestBlock (lit "1");
              RequestResponse.AddRequestBlock] RequestResponse.init = Some s
           /\ RequestResponse.reachable Prism_highlight prettyJSON s
           /\ map RequestResponse.id (RequestResponse.requests s) = [lit "2"; lit "2"]
           /\ RequestResponse.requests (RequestResponse.removeRequestBlock (lit "2") s)
              = []).
Proof.
  split; [| split; [| split]].
  - intros s. unfold ButtonList.addItem, toString. simpl.
    now rewrite digits_decimal.
  - intros s. unfold RequestResponse.addRequestBlock, toString. simpl.
    now rewrite digits_decimal.
  - split; [| split].
    + apply buttonlist_run_reachable. constructor.
    + reflexivity.
    + reflexivity.
  - intros P J.
    exists (RequestResponse.mkState (lit "GET")
              [RequestResponse.mkRequest (lit "cURL") [] (lit "2");
               RequestResponse.mkRequest (lit "cURL") [] (lit "2")] [] false []).
    assert (R : RequestResponse.run P J
                  [RequestResponse.AddRequestBlock;
                   RequestResponse.RemoveRequestBlock (lit "1");
                   RequestResponse.AddRequestBlock] RequestResponse.init
                = Some (RequestResponse.mkState (lit "GET")
                          [RequestResponse.mkRequest (lit "cURL") [] (lit "2");
                           RequestResponse.mkRequest (lit "cURL") [] (lit "2")]
                          [] false [])) by reflexivity.
    split; [exact R |]. split; [| split; reflexivity].
    exact (requestresponse_run_reachable P J _ _ _
             (RequestResponse.reachable_init P J) R).
Qed.

(** C3.  The entry count does drop below one: once an identifier has been
    reused (add, remove entry [1], add), the remove button of an entry
    with id [2] is enabled, the list having two entries, and its handler
    filters out both.  The state is reachable in the button list and in
    both request/response variants. *)
Theorem remove_empties_list_after_id_reuse :
  (let s := ButtonList.run
              [ButtonList.AddItem; ButtonList.RemoveItem (lit "1");
               ButtonList.AddItem; ButtonList.RemoveItem (lit "2")]
              ButtonList.init in
   ButtonList.reachable s /\ length (ButtonList.items s) = 0)
  /\ (forall Prism_highlight prettyJSON,
         exists s,
           RequestResponse.run Prism_highlight prettyJSON
             [RequestResponse.AddRequestBlock;
              RequestResponse.RemoveRequestBlock (lit "1");
              RequestResponse.AddRequestBlock;
              RequestResponse.RemoveRequestBlock (lit "2")]
             RequestResponse.init = Some s
           /\ RequestResponse.reachable Prism_highlight prettyJSON s
           /\ length (RequestResponse.requests s) = 0)
  /\ (let s := RequestResponsePlain.run
                 [RequestResponsePlain.AddRequestBlock;
                  RequestResponsePlain.RemoveRequestBlock (lit "1");
                  RequestResponsePlain.AddRequestBlock;
                  RequestResponsePlain.RemoveRequestBlock (lit "2")]
                 RequestResponsePlain.init in
      RequestResponsePlain.reachable s
      /\ length (RequestResponsePlain.requests s) = 0).
Proof.
  split; [| split].
  - split; [apply buttonlist_run_reachable; constructor | reflexivity].
  - intros P J.
    exists (RequestResponse.mkState (lit "GET") [] [] false []).
    assert (R : RequestResponse.run P J
                  [RequestResponse.AddRequestBlock;
                   RequestResponse.RemoveRequestBlock (lit "1");
                   RequestResponse.AddRequestBlock;
                   RequestResponse.RemoveRequestBlock (lit "2")]
                  RequestResponse.init
                = Some (RequestResponse.mkState (lit "GET") [] [] false []))
      by reflexivity.
    split; [exact R |]. split; [| reflexivity].
    exact (requestresponse_run_reachable P J _ _ _
             (RequestResponse.reachable_init P J) R).
  - split; [apply plain_run_reachable; constructor | reflexivity].
Qed.

(** C10.  An id-addressed edit is not confined to one entry once an
    identifier has been reused: in the reachable state with the entries
    [A] and a fresh one, both of id [2], typing a link into one row
    rewrites the link of the other row as well (the length is kept).  The
    same holds for the code blocks of the request/response widget: the
    render that follows the edit shows the code in both blocks, and so
    does the state after the highlighting hook unless the hook throws. *)
Theorem edit_rewrites_entry_with_reused_id :
  (let s := ButtonList.run
              [ButtonList.AddItem; ButtonList.RemoveItem (lit "1");
               ButtonList.UpdateItem (lit "2") ButtonList.Label (lit "A");
               ButtonList.AddItem] ButtonList.init in
   ButtonList.reachable s
   /\ ButtonList.items s
      = [ButtonList.mkItem (lit "A") [] (lit "2"); ButtonList.mkItem [] [] (lit "2")]
   /\ ButtonList.items
        (ButtonList.dispatch
           (ButtonList.UpdateItem (lit "2") ButtonList.Link (lit "/a")) s)
      = [ButtonList.mkItem (lit "A") (lit "/a") (lit "2");
         ButtonList.mkItem [] (lit "/a") (lit "2")])
  /\ (forall Prism_highlight prettyJSON,
         exists s,
           RequestResponse.run Prism_highlight prettyJSON
             [RequestResponse.AddRequestBlock;
              RequestResponse.RemoveRequestBlock (lit "1");
              RequestResponse.SelectLanguage (lit "2") (lit "Go");
              RequestResponse.AddRequestBlock] RequestResponse.init = Some s
           /\ RequestResponse.reachable Prism_highlight prettyJSON s
           /\ RequestResponse.requests s
              = [RequestResponse.mkRequest (lit "Go") [] (lit "2");
                 RequestResponse.mkRequest (lit "cURL") [] (lit "2")]
           /\ RequestResponse.requests
                (RequestResponse.handle
                   (RequestResponse.EditCode (lit "2") (lit "x")) s)
              = [RequestResponse.mkRequest (lit "Go") (lit "x") (lit "2");
                 RequestResponse.mkRequest (lit "cURL") (lit "x") (lit "2")]
           /\ match RequestResponse.dispatch Prism_highlight prettyJSON
                      (RequestResponse.EditCode (lit "2") (lit "x")) s with
              | Some s' =>
                  RequestResponse.requests s'
                  = [RequestResponse.mkRequest (lit "Go") (lit "x") (lit "2");
                     RequestResponse.mkRequest (lit "cURL") (lit "x") (lit "2")]
              | None => True
              end).
Proof.
  split.
  - split; [apply buttonlist_run_reachable; constructor | split; reflexivity].
  - intros P J.
    exists (RequestResponse.mkState (lit "GET")
              [RequestResponse.mkRequest (lit "Go") [] (lit "2");
               RequestResponse.mkRequest (lit "cURL") [] (lit "2")] [] false []).
    assert (R : RequestResponse.run P J
                  [RequestResponse.AddRequestBlock;
                   RequestResponse.RemoveRequestBlock (lit "1");
                   RequestResponse.SelectLanguage (lit "2") (lit "Go");
                   RequestResponse.AddRequestBlock] RequestResponse.init
                = Some (RequestResponse.mkState (lit "GET")
                          [RequestResponse.mkRequest (lit "Go") [] (lit "2");
                           RequestResponse.mkRequest (lit "cURL") [] (lit "2")]
                          [] false [])) by reflexivity.
    split; [exact R |].
    split; [exact (requestresponse_run_reachable P J _ _ _
                     (RequestResponse.reachable_init P J) R) |].
    split; [reflexivity | split; [reflexivity |]].
    match goal with
    | |- match RequestResponse.dispatch P J ?a ?s0 with _ => _ end =>
        pose proof (dispatch_keeps_requests P J a s0) as K;
        destruct (RequestResponse.dispatch P J a s0);
        [rewrite K; reflexivity | exact I]
    end.
Qed.

(* ================================================================== *)
(** * Further properties of the handlers *)
(* ================================================================== *)

(** ** Invariants of the docfooter widget *)

Lemma docfooter_run_reachable (acts : list DocFooter.action) :
  forall s, DocFooter.reachable s -> DocFooter.reachable (DocFooter.run acts s).
Proof.
  induction acts as [|a acts IH]; intros s H; simpl; [exact H |].
  apply IH. now constructor.
Qed.

(** X1.  Whatever the user does in the docfooter form, at least one
    related link is left: adding appends, an edit keeps the length, and
    the remove button is disabled while a single link is shown. *)
Theorem docfooter_keeps_one_link (acts : list DocFooter.action) :
  1 <= length (DocFooter.links (DocFooter.run acts DocFooter.init)).
Proof.
  apply docfooter_reachable_nonempty, docfooter_run_reachable. constructor.
Qed.

Lemma docfooter_seeAlso_sync (s : DocFooter.State) :
  DocFooter.reachable s ->
  (DocFooter.showSeeAlso s = true <-> DocFooter.seeAlso s <> None).
Proof.
  induction 1 as [|a s _ IH].
  - simpl. split; [discriminate | congruence].
  - destruct a; simpl; try exact IH.
    + destruct (Nat.eqb (length (DocFooter.links s)) 1); exact IH.
    + destruct (DocFooter.showSeeAlso s) eqn:E; [| rewrite E; exact IH].
      simpl. rewrite E. split; [discriminate | reflexivity].
    + unfold DocFooter.toggleSeeAlso.
      destruct (DocFooter.showSeeAlso s); simpl.
      * split; [discriminate | congruence].
      * split; [discriminate | reflexivity].
    + unfold DocFooter.handleCopy.
      destruct (DocFooter.hasErrors s); [exact IH |].
      destruct clipboard_ok; exact IH.
Qed.

(** X2.  The See Also entry exists exactly while the See Also checkbox is
    ticked: in every state the form can reach, [showSeeAlso] holds iff
    [seeAlso] is not null. *)
Theorem seeAlso_present_iff_shown (acts : list DocFooter.action) :
  DocFooter.showSeeAlso (DocFooter.run acts DocFooter.init) = true
  <-> DocFooter.seeAlso (DocFooter.run acts DocFooter.init) <> None.
Proof.
  apply docfooter_seeAlso_sync, docfooter_run_reachable. constructor.
Qed.

Lemma changeLink_in_sync (f : DocFooter.field) (v : jsstring)
    (l : DocFooter.RelatedLink) :
  urlError_in_sync l -> urlError_in_sync (DocFooter.changeLink f v l).
Proof.
  unfold urlError_in_sync. destruct f; simpl; [tauto | now left].
Qed.

Lemma Forall_filteri_from {A} (P : A -> Prop) (p : nat -> A -> bool) (l : list A) :
  forall k, Forall P l -> Forall P (filteri_from p k l).
Proof.
  induction l as [|x l IH]; intros k H; simpl; [constructor |].
  inversion H as [|? ? Hx Hl]; subst.
  destruct (p k x); [constructor; [exact Hx |] |]; now apply IH.
Qed.

Lemma Forall_mapi_from {A} (P : A -> Prop) (f : nat -> A -> A) (l : list A) :
  (forall i x, P x -> P (f i x)) ->
  forall k, Forall P l -> Forall P (mapi_from f k l).
Proof.
  intros Hf. induction l as [|x l IH]; intros k H; simpl; [constructor |].
  inversion H as [|? ? Hx Hl]; subst.
  constructor; [now apply Hf | now apply IH].
Qed.

Lemma docfooter_urlError_sync (s : DocFooter.State) :
  DocFooter.reachable s ->
  Forall urlError_in_sync (DocFooter.links s)
  /\ match DocFooter.seeAlso s with
     | Some sa => urlError_in_sync sa
     | None => True
     end.
Proof.
  assert (E : urlError_in_sync DocFooter.emptyLink) by (right; split; reflexivity).
  induction 1 as [|a s _ [IHl IHs]].
  - simpl. split; [now constructor | exact I].
  - destruct a; simpl.
    + split; [| exact IHs]. apply Forall_app. split; [exact IHl | now constructor].
    + destruct (Nat.eqb (length (DocFooter.links s)) 1); [now split |].
      simpl. split; [| exact IHs]. now apply Forall_filteri_from.
    + split; [| exact IHs]. apply Forall_mapi_from; [| exact IHl].
      intros i x Hx. destruct (Nat.eqb i index); [| exact Hx].
      now apply changeLink_in_sync.
    + destruct (DocFooter.showSeeAlso s); [| now split].
      simpl. split; [exact IHl |].
      apply changeLink_in_sync. destruct (DocFooter.seeAlso s); [exact IHs | exact E].
    + unfold DocFooter.toggleSeeAlso.
      destruct (DocFooter.showSeeAlso s); simpl; split; try exact IHl; [exact I | exact E].
    + unfold DocFooter.handleCopy.
      destruct (DocFooter.hasErrors s); [now split |].
      destruct clipboard_ok; now split.
    + now split.
Qed.

(** X3.  The error text stored beside a url never goes stale: in every
    state the form can reach, each related link, and the See Also link
    when there is one, stores the validator's verdict on its current url,
    the one exception being an entry whose url was never typed, which
    has the empty url and shows no error although the validator rejects
    the empty url. *)
Theorem urlError_never_stale (acts : list DocFooter.action) :
  Forall urlError_in_sync (DocFooter.links (DocFooter.run acts DocFooter.init))
  /\ match DocFooter.seeAlso (DocFooter.run acts DocFooter.init) with
     | Some sa => urlError_in_sync sa
     | None => True
     end.
Proof.
  apply docfooter_urlError_sync, docfooter_run_reachable. constructor.
Qed.

(** ** Removing a link by index *)

Lemma filteri_keeps_after {A} (index : nat) (l : list A) :
  forall k, index < k -> filteri_from (fun i _ => negb (i =? index)) k l = l.
Proof.
  induction l as [|x l IH]; intros k Hk; simpl; [reflexivity |].
  destruct (k =? index) eqn:E; [apply Nat.eqb_eq in E; lia |].
  simpl. f_equal. apply IH. lia.
Qed.

Lemma filteri_drops_index {A} (l : list A) :
  forall k index,
    filteri_from (fun i _ => negb (i =? k + index)) k l
    = firstn index l ++ skipn (S index) l.
Proof.
  induction l as [|x l IH]; intros k index; simpl.
  - now destruct index.
  - destruct index as [|index].
    + rewrite Nat.add_0_r, Nat.eqb_refl. simpl.
      apply filteri_keeps_after. lia.
    + destruct (k =? k + S index) eqn:E; [apply Nat.eqb_eq in E; lia |].
      simpl. f_equal.
      replace (k + S index) with (S k + index) by lia. apply IH.
Qed.

Lemma filteri_drop_spec {A} (index : nat) (l : list A) :
  filteri (fun i _ => negb (i =? index)) l = firstn index l ++ skipn (S index) l.
Proof. exact (filteri_drops_index l 0 index). Qed.

(** X4.  [handleRemoveLink] deletes exactly the link at the given index
    and keeps the others in order; an index past the end deletes
    nothing. *)
Theorem handleRemoveLink_drops_index (index : nat) (s : DocFooter.State) :
  DocFooter.links (DocFooter.handleRemoveLink index s)
  = firstn index (DocFooter.links s) ++ skipn (S index) (DocFooter.links s)
  /\ (length (DocFooter.links s) <= index ->
      DocFooter.handleRemoveLink index s = s).
Proof.
  assert (H : DocFooter.links (DocFooter.handleRemoveLink index s)
              = firstn index (DocFooter.links s) ++ skipn (S index) (DocFooter.links s)).
  { simpl. apply filteri_drop_spec. }
  split; [exact H |].
  intros Hle. destruct s as [l sa c sh]. simpl in *.
  unfold DocFooter.handleRemoveLink, DocFooter.setLinks. simpl. f_equal.
  rewrite filteri_drop_spec.
  rewrite firstn_all2 by exact Hle. rewrite skipn_all2 by lia. apply app_nil_r.
Qed.

Lemma handleRemoveLink_drops_index_witness :
  DocFooter.handleRemoveLink 1 DocFooter.init = DocFooter.init.
Proof.
  apply (proj2 (handleRemoveLink_drops_index 1 DocFooter.init)). simpl. lia.
Defined.

Lemma drop_appended {A} (l : list A) (e : A) :
  firstn (length l) (l ++ [e]) ++ skipn (S (length l)) (l ++ [e]) = l.
Proof. induction l as [|x l IH]; simpl; [reflexivity | now f_equal]. Qed.

(** X5.  Adding a link and then removing the added row gives back the
    state before the addition. *)
Theorem add_then_remove_last_link (s : DocFooter.State) :
  DocFooter.handleRemoveLink (length (DocFooter.links s)) (DocFooter.handleAddLink s)
  = s.
Proof.
  destruct s as [l sa c sh].
  unfold DocFooter.handleRemoveLink, DocFooter.handleAddLink, DocFooter.setLinks.
  simpl. f_equal. rewrite filteri_drop_spec. apply drop_appended.
Qed.

(** ** The error predicate is exact *)

Lemma Exists_of_existsb {A} {P : A -> Prop} {f : A -> bool} {l : list A} :
  (forall x, f x = true -> P x) -> existsb f l = true -> Exists P l.
Proof.
  intros Hf. induction l as [|x l IH]; simpl; [discriminate |].
  intros H. apply orb_true_iff in H as [H | H].
  - left. now apply Hf.
  - right. now apply IH.
Qed.

Lemma negb_truthy_empty (v : jsstring) : negb (truthy v) = true -> v = [].
Proof. destruct v; [reflexivity | discriminate]. Qed.

Lemma link_error_is_invalid {l : DocFooter.RelatedLink} :
  DocFooter.linkHasError l = true -> invalid_link l.
Proof.
  unfold DocFooter.linkHasError, invalid_link, empty_field, invalid_url.
  intros H. apply orb_true_iff in H as [H | H].
  - right. destruct (DocFooter.url l) as [|c u] eqn:E; [now left | right].
    intros Hp.
    assert (V : DocFooter.validateUrl (c :: u) = []).
    { apply validateUrl_nil_iff. split; [discriminate | exact Hp]. }
    rewrite V in H. discriminate.
  - left. now apply negb_truthy_empty.
Qed.

(** X6.  The error predicate raises no false alarm: when it holds, some
    required field of some entry is indeed empty, or some url is empty or
    lacks the [/docs] prefix. *)
Theorem errors_only_for_invalid_field (w : widget) :
  hasErrors w = true -> some_field_invalid w.
Proof.
  destruct w as [s | s | s | s]; simpl; unfold empty_field.
  - unfold DocFooter.hasErrors. intros H.
    apply orb_true_iff in H as [H | H].
    + left. exact (Exists_of_existsb (@link_error_is_invalid) H).
    + right. apply andb_true_iff in H as [Hs H].
      split; [exact Hs |].
      destruct (DocFooter.seeAlso s) as [sa|]; [| discriminate].
      exists sa. split; [reflexivity | now apply link_error_is_invalid].
  - unfold RequestResponse.hasErrors. intros H.
    apply orb_true_iff in H as [H | H].
    + left. eapply Exists_of_existsb; [| exact H].
      intros x Hx. now apply negb_truthy_empty.
    + right. now apply negb_truthy_empty.
  - unfold RequestResponsePlain.hasErrors. intros H.
    apply orb_true_iff in H as [H | H].
    + left. eapply Exists_of_existsb; [| exact H].
      intros x Hx. now apply negb_truthy_empty.
    + right. now apply negb_truthy_empty.
  - unfold ButtonList.hasErrors. intros H.
    eapply Exists_of_existsb; [| exact H].
    intros x Hx. apply orb_true_iff in Hx as [Hx | Hx];
      [left | right]; now apply negb_truthy_empty.
Qed.

Lemma errors_only_for_invalid_field_witness :
  some_field_invalid (RequestResponseW RequestResponse.init).
Proof.
  apply (errors_only_for_invalid_field (RequestResponseW RequestResponse.init)).
  reflexivity.
Defined.

Lemma valid_output_opens_tag (w : widget) :
  hasErrors w = false -> hd 0%N (serialize w) = 123%N.
Proof.
  destruct w as [s | s | s | s]; simpl; intros H.
  - unfold DocFooter.generateMarkdoc. rewrite H. reflexivity.
  - unfold RequestResponse.generateMarkdoc.
    unfold RequestResponse.hasErrors in H. rewrite H. reflexivity.
  - unfold RequestResponsePlain.generateMarkdoc.
    unfold RequestResponsePlain.hasErrors in H. rewrite H. reflexivity.
  - unfold ButtonList.generateMarkdoc.
    unfold ButtonList.hasErrors in H. rewrite H. reflexivity.
Qed.

(** X7.  The serialized text tells whether the state was valid: it is
    the widget's placeholder comment exactly when the error predicate
    holds, no valid state being serialized to the placeholder. *)
Theorem placeholder_iff_errors (w : widget) :
  serialize w = placeholder w <-> hasErrors w = true.
Proof.
  split; [| apply errors_give_placeholder].
  intros E. destruct (hasErrors w) eqn:H; [reflexivity |].
  apply valid_output_opens_tag in H. rewrite E in H.
  destruct w; vm_compute in H; discriminate.
Qed.

(** X8.  Every action that creates an entry leaves the widget invalid,
    the new entry being empty: after adding a link, a button or a code
    block, and after ticking the See Also checkbox, the error predicate
    holds, so the copy button stays disabled until the entry is filled. *)
Theorem new_entry_disables_copy :
  (forall s, DocFooter.hasErrors (DocFooter.handleAddLink s) = true)
  /\ (forall s, ButtonList.hasErrors (ButtonList.addItem s) = true)
  /\ (forall s, RequestResponse.hasErrors (RequestResponse.addRequestBlock s) = true)
  /\ (forall s, RequestResponsePlain.hasErrors
                  (RequestResponsePlain.addRequestBlock s) = true)
  /\ (forall s, DocFooter.showSeeAlso s = false ->
                DocFooter.hasErrors (DocFooter.toggleSeeAlso s) = true).
Proof.
  repeat split; intros s.
  - unfold DocFooter.hasErrors. simpl. rewrite existsb_app. simpl.
    now rewrite orb_true_r.
  - unfold ButtonList.hasErrors. simpl. rewrite existsb_app. simpl.
    apply orb_true_r.
  - unfold RequestResponse.hasErrors. simpl. rewrite existsb_app. simpl.
    now rewrite orb_true_r.
  - unfold RequestResponsePlain.hasErrors. simpl. rewrite existsb_app. simpl.
    now rewrite orb_true_r.
  - intros H. unfold DocFooter.toggleSeeAlso, DocFooter.hasErrors.
    rewrite H. simpl. apply orb_true_r.
Qed.

Lemma new_entry_disables_copy_witness :
  DocFooter.hasErrors
    (DocFooter.toggleSeeAlso
       (DocFooter.mkState
          [DocFooter.mkLink (lit "Guide") (lit "/docs/guide") (Some [])]
          None false false)) = true.
Proof.
  destruct new_entry_disables_copy as [_ [_ [_ [_ H]]]].
  apply H. reflexivity.
Defined.

(** ** What [stringifyCode] does at the ends of a value *)

Lemma trimStart_nil_iff (s : jsstring) :
  trimStart s = [] <-> forallb is_ws s = true.
Proof.
  induction s as [|c s IH]; simpl; [tauto |].
  destruct (is_ws c); simpl; [exact IH | split; discriminate].
Qed.

Lemma trimStart_starts (s : jsstring) : starts_with_ws (trimStart s) = false.
Proof.
  induction s as [|c s IH]; simpl; [reflexivity |].
  destruct (is_ws c) eqn:W; [exact IH | simpl; exact W].
Qed.

Lemma trimStart_suffix (s : jsstring) : exists p, s = p ++ trimStart s.
Proof.
  induction s as [|c s [p Hp]]; simpl; [now exists [] |].
  destruct (is_ws c); [| now exists []].
  exists (c :: p). simpl. now f_equal.
Qed.

Lemma forallb_rev {A} (f : A -> bool) (l : list A) :
  forallb f (rev l) = forallb f l.
Proof.
  induction l as [|x l IH]; simpl; [reflexivity |].
  rewrite forallb_app, IH. simpl. rewrite andb_true_r. apply andb_comm.
Qed.

Lemma rev_nil_inv {A} (l : list A) : rev l = [] -> l = [].
Proof. intros H. rewrite <- (rev_involutive l), H. reflexivity. Qed.

Lemma trim_nil_iff (s : jsstring) : trim s = [] <-> forallb is_ws s = true.
Proof.
  unfold trim, trimEnd. split.
  - intros H. apply rev_nil_inv, trimStart_nil_iff in H.
    rewrite forallb_rev in H. apply trimStart_nil_iff.
    pose proof (trimStart_starts s) as S.
    destruct (trimStart s) as [|c t]; [reflexivity |].
    simpl in *. rewrite S in H. discriminate.
  - intros H. apply trimStart_nil_iff in H. now rewrite H.
Qed.

Lemma trim_ends (s : jsstring) :
  starts_with_ws (trim s) = false /\ ends_with_ws (trim s) = false.
Proof.
  unfold ends_with_ws, trim, trimEnd. rewrite rev_involutive.
  split; [| apply trimStart_starts].
  pose proof (trimStart_starts s) as S.
  destruct (trimStart_suffix (rev (trimStart s))) as [p Hp].
  apply (f_equal (@rev _)) in Hp. rewrite rev_involutive, rev_app_distr in Hp.
  destruct (rev (trimStart (rev (trimStart s)))) as [|c t]; [reflexivity |].
  rewrite Hp in S. exact S.
Qed.

Lemma flat_map_starts (g : char -> jsstring) (s : jsstring) :
  (forall d, is_ws d = false -> starts_with_ws (g d) = false /\ g d <> []) ->
  starts_with_ws s = false -> starts_with_ws (flat_map g s) = false.
Proof.
  intros Hg. destruct s as [|d s]; simpl; [reflexivity |].
  intros W. destruct (Hg d W) as [H1 H2].
  destruct (g d); [congruence | exact H1].
Qed.

Lemma flat_map_rev {A B} (g : A -> list B) (l : list A) :
  rev (flat_map g l) = flat_map (fun d => rev (g d)) (rev l).
Proof.
  induction l as [|x l IH]; simpl; [reflexivity |].
  rewrite rev_app_distr, IH, flat_map_app. simpl. now rewrite app_nil_r.
Qed.

Lemma replace_char_ends (c : char) (r : jsstring) (s : jsstring) :
  (is_ws c = false -> starts_with_ws r = false /\ ends_with_ws r = false /\ r <> []) ->
  starts_with_ws s = false /\ ends_with_ws s = false ->
  starts_with_ws (replace_char c r s) = false
  /\ ends_with_ws (replace_char c r s) = false.
Proof.
  intros Hr [Hs He]. unfold replace_char, ends_with_ws in *. split.
  - apply flat_map_starts; [| exact Hs].
    intros d W. destruct (char_eqb d c) eqn:E.
    + apply N.eqb_eq in E. subst d. destruct (Hr W) as [A [_ B]]. now split.
    + simpl. split; [exact W | discriminate].
  - rewrite flat_map_rev. apply flat_map_starts; [| exact He].
    intros d W. destruct (char_eqb d c) eqn:E.
    + apply N.eqb_eq in E. subst d. destruct (Hr W) as [_ [A B]].
      split; [exact A |]. intros K. apply rev_nil_inv in K. contradiction.
    + simpl. split; [exact W | discriminate].
Qed.

Lemma replace_ws_runs_snoc (r : jsstring) (c : char) (l : jsstring) :
  is_ws c = false ->
  forall f, replace_ws_runs_from f r (l ++ [c]) = replace_ws_runs_from f r l ++ [c].
Proof.
  intros W. induction l as [|d l IH]; intros f; simpl.
  - now rewrite W.
  - destruct (is_ws d); rewrite IH; [now rewrite app_assoc | reflexivity].
Qed.

Lemma replace_ws_runs_ends (s : jsstring) :
  starts_with_ws s = false /\ ends_with_ws s = false ->
  starts_with_ws (replace_ws_runs [space] s) = false
  /\ ends_with_ws (replace_ws_runs [space] s) = false.
Proof.
  intros [Hs He]. unfold replace_ws_runs, ends_with_ws in *. split.
  - destruct s as [|c s]; simpl in *; [reflexivity |]. rewrite Hs. simpl. exact Hs.
  - destruct (rev s) as [|c l] eqn:R.
    + apply rev_nil_inv in R. subst s. reflexivity.
    + apply (f_equal (@rev _)) in R. rewrite rev_involutive in R.
      simpl in R, He. subst s.
      rewrite replace_ws_runs_snoc by exact He.
      rewrite rev_app_distr. simpl. exact He.
Qed.

Lemma replace_char_nil_inv (c : char) (r s : jsstring) :
  r <> [] -> replace_char c r s = [] -> s = [].
Proof.
  intros Hr. destruct s as [|d s]; [reflexivity |].
  unfold replace_char. simpl. destruct (char_eqb d c).
  - intros H. apply app_eq_nil in H as [H _]. contradiction.
  - discriminate.
Qed.

Lemma replace_ws_runs_nil_inv (s : jsstring) :
  replace_ws_runs [space] s = [] -> s = [].
Proof.
  destruct s as [|c s]; [reflexivity |].
  unfold replace_ws_runs. simpl. destruct (is_ws c); discriminate.
Qed.

(** X9.  [stringifyCode] returns the empty string exactly for the values
    that hold nothing but whitespace characters: a code or response made
    of spaces and newlines is serialized as the empty string, and any
    other value as a non-empty one. *)
Theorem stringifyCode_empty_iff_blank (c : jsstring) :
  RequestResponse.stringifyCode c = [] <-> forallb is_ws c = true.
Proof.
  unfold RequestResponse.stringifyCode. rewrite <- trim_nil_iff. split.
  - intros H. apply replace_ws_runs_nil_inv in H.
    apply replace_char_nil_inv in H; [| discriminate].
    apply replace_char_nil_inv in H; [exact H | discriminate].
  - intros H. rewrite H. reflexivity.
Qed.

(** X10.  The value [stringifyCode] returns is trimmed: it neither
    starts nor ends with a whitespace character, whatever surrounds the
    code in the text area. *)
Theorem stringifyCode_trimmed (c : jsstring) :
  starts_with_ws (RequestResponse.stringifyCode c) = false
  /\ ends_with_ws (RequestResponse.stringifyCode c) = false.
Proof.
  unfold RequestResponse.stringifyCode.
  apply replace_ws_runs_ends.
  apply replace_char_ends; [intros W; vm_compute in W; discriminate |].
  apply replace_char_ends; [intros _; repeat split; discriminate |].
  apply trim_ends.
Qed.

(** ** Entry identifiers while they are distinct *)

Lemma string_eqb_eq (a : jsstring) : forall b, string_eqb a b = true <-> a = b.
Proof.
  induction a as [|x a IH]; intros [|y b]; simpl; try (split; congruence).
  unfold char_eqb. rewrite andb_true_iff, N.eqb_eq, IH.
  split; [intros [-> ->]; reflexivity | intros H; injection H; auto].
Qed.

Lemma string_eqb_refl (a : jsstring) : string_eqb a a = true.
Proof. now apply string_eqb_eq. Qed.

Lemma string_eqb_neq (a b : jsstring) : a <> b -> string_eqb a b = false.
Proof.
  intros H. destruct (string_eqb a b) eqn:E; [| reflexivity].
  apply string_eqb_eq in E. contradiction.
Qed.

Lemma digits_inj (u : Decimal.uint) : forall v, digits u = digits v -> u = v.
Proof.
  induction u; intros v H; destruct v; simpl in H; try discriminate;
    try reflexivity; injection H as H; f_equal; now apply IHu.
Qed.

Lemma toString_inj (n m : nat) : toString n = toString m -> n = m.
Proof.
  unfold toString. intros H. apply digits_inj in H.
  rewrite <- (DecimalNat.Unsigned.of_to n), <- (DecimalNat.Unsigned.of_to m).
  now rewrite H.
Qed.

Lemma NoDup_map_inj {A B} (f : A -> B) (l : list A) :
  (forall x y, f x = f y -> x = y) -> NoDup l -> NoDup (map f l).
Proof.
  intros Hf H. induction H as [|x l Hx _ IH]; simpl; constructor; [| exact IH].
  intros Hin. apply in_map_iff in Hin as [y [Hy Hin]].
  apply Hf in Hy. now subst y.
Qed.

Lemma numbered_step (a : ButtonList.action) (s : ButtonList.State) :
  keeps_entries a = true -> numbered s -> numbered (ButtonList.dispatch a s).
Proof.
  unfold numbered. destruct a; simpl; try discriminate; intros _ H.
  - rewrite map_app, length_app, H. simpl.
    rewrite Nat.add_1_r, seq_S, map_app. reflexivity.
  - destruct (existsb _ _); [| exact H].
    simpl. rewrite length_map, map_map, <- H.
    apply map_ext. intros b.
    destruct (string_eqb (ButtonList.id b) id0); [now destruct fld | reflexivity].
  - unfold ButtonList.handleCopy, ButtonList.hasErrors.
    destruct (existsb _ _); [exact H |]. destruct clipboard_ok; exact H.
  - exact H.
Qed.

Lemma numbered_run (acts : list ButtonList.action) :
  forall s, forallb keeps_entries acts = true -> numbered s ->
            numbered (ButtonList.run acts s).
Proof.
  induction acts as [|a acts IH]; intros s Ha H; simpl in *; [exact H |].
  apply andb_true_iff in Ha as [Ha Hacts].
  apply IH; [exact Hacts | now apply numbered_step].
Qed.

(** X11.  As long as no entry is removed, the identifiers of the button
    list are the numerals from [1] to the number of entries, in order,
    hence pairwise distinct. *)
Theorem ids_distinct_without_removal (acts : list ButtonList.action) :
  forallb keeps_entries acts = true ->
  let s := ButtonList.run acts ButtonList.init in
  map ButtonList.id (ButtonList.items s)
  = map toString (seq 1 (length (ButtonList.items s)))
  /\ NoDup (map ButtonList.id (ButtonList.items s)).
Proof.
  intros Ha s.
  assert (H : numbered s) by (apply numbered_run; [exact Ha | reflexivity]).
  split; [exact H |].
  rewrite H. apply NoDup_map_inj; [exact toString_inj | apply seq_NoDup].
Qed.

Lemma ids_distinct_without_removal_witness :
  map ButtonList.id
    (ButtonList.items
       (ButtonList.run
          [ButtonList.AddItem;
           ButtonList.UpdateItem (lit "2") ButtonList.Label (lit "Docs");
           ButtonList.AddItem] ButtonList.init))
  = [lit "1"; lit "2"; lit "3"].
Proof.
  exact (proj1 (ids_distinct_without_removal
                  [ButtonList.AddItem;
                   ButtonList.UpdateItem (lit "2") ButtonList.Label (lit "Docs");
                   ButtonList.AddItem] eq_refl)).
Defined.

Section UniqueKey.

Context {A : Type} (key : A -> jsstring).

Lemma filter_other_keys (k : jsstring) (l : list A) :
  ~ In k (map key l) -> filter (fun x => negb (string_eqb (key x) k)) l = l.
Proof.
  induction l as [|x l IH]; simpl; [reflexivity |].
  intros H. rewrite string_eqb_neq by tauto. simpl. f_equal. apply IH. tauto.
Qed.

Lemma map_other_keys (k : jsstring) (g : A -> A) (l : list A) :
  ~ In k (map key l) ->
  map (fun x => if string_eqb (key x) k then g x else x) l = l.
Proof.
  induction l as [|x l IH]; simpl; [reflexivity |].
  intros H. rewrite string_eqb_neq by tauto. f_equal. apply IH. tauto.
Qed.

Lemma filter_unique_key (l : list A) :
  forall j b, NoDup (map key l) -> nth_error l j = Some b ->
    filter (fun x => negb (string_eqb (key x) (key b))) l
    = firstn j l ++ skipn (S j) l.
Proof.
  induction l as [|x l IH]; intros j b Hn Hj; [now destruct j |].
  simpl in Hn. inversion Hn as [|? ? Hx Hl]; subst.
  destruct j as [|j]; simpl in *.
  - injection Hj as ->. rewrite string_eqb_refl. simpl.
    now apply filter_other_keys.
  - assert (Hb : In (key b) (map key l)) by (apply in_map; eapply nth_error_In; eauto).
    rewrite string_eqb_neq by (intros E; rewrite E in Hx; contradiction).
    simpl. f_equal. now apply IH.
Qed.

Lemma map_unique_key (g : A -> A) (l : list A) :
  forall j b, NoDup (map key l) -> nth_error l j = Some b ->
    map (fun x => if string_eqb (key x) (key b) then g x else x) l
    = firstn j l ++ [g b] ++ skipn (S j) l.
Proof.
  induction l as [|x l IH]; intros j b Hn Hj; [now destruct j |].
  simpl in Hn. inversion Hn as [|? ? Hx Hl]; subst.
  destruct j as [|j]; simpl in *.
  - injection Hj as ->. rewrite string_eqb_refl. f_equal.
    now apply map_other_keys.
  - assert (Hb : In (key b) (map key l)) by (apply in_map; eapply nth_error_In; eauto).
    rewrite string_eqb_neq by (intros E; rewrite E in Hx; contradiction).
    f_equal. now apply IH.
Qed.

End UniqueKey.

(** X12.  While the identifiers are pairwise distinct and more than one
    entry is left, the remove handler deletes exactly the entry whose row
    was clicked and keeps the others in order. *)
Theorem remove_deletes_one_when_ids_distinct :
  (forall s j b,
      NoDup (map ButtonList.id (ButtonList.items s)) ->
      nth_error (ButtonList.items s) j = Some b ->
      length (ButtonList.items s) <> 1 ->
      ButtonList.items (ButtonList.removeItem (ButtonList.id b) s)
      = firstn j (ButtonList.items s) ++ skipn (S j) (ButtonList.items s))
  /\ (forall s j r,
         NoDup (map RequestResponse.id (RequestResponse.requests s)) ->
         nth_error (RequestResponse.requests s) j = Some r ->
         length (RequestResponse.requests s) <> 1 ->
         RequestResponse.requests
           (RequestResponse.removeRequestBlock (RequestResponse.id r) s)
         = firstn j (RequestResponse.requests s)
           ++ skipn (S j) (RequestResponse.requests s)).
Proof.
  split; intros s j b Hn Hj Hl; apply Nat.eqb_neq in Hl.
  - unfold ButtonList.removeItem. rewrite Hl. simpl.
    now apply filter_unique_key.
  - unfold RequestResponse.removeRequestBlock. rewrite Hl. simpl.
    now apply filter_unique_key.
Qed.

Lemma remove_deletes_one_when_ids_distinct_witness :
  ButtonList.items
    (ButtonList.removeItem (lit "2")
       (ButtonList.mkState
          [ButtonList.mkItem (lit "A") (lit "/a") (lit "1");
           ButtonList.mkItem (lit "B") (lit "/b") (lit "2");
           ButtonList.mkItem (lit "C") (lit "/c") (lit "3")] false))
  = [ButtonList.mkItem (lit "A") (lit "/a") (lit "1");
     ButtonList.mkItem (lit "C") (lit "/c") (lit "3")].
Proof.
  apply (proj1 remove_deletes_one_when_ids_distinct
           (ButtonList.mkState
              [ButtonList.mkItem (lit "A") (lit "/a") (lit "1");
               ButtonList.mkItem (lit "B") (lit "/b") (lit "2");
               ButtonList.mkItem (lit "C") (lit "/c") (lit "3")] false)
           1 (ButtonList.mkItem (lit "B") (lit "/b") (lit "2"))).
  - simpl. repeat constructor; simpl; intuition discriminate.
  - reflexivity.
  - simpl. discriminate.
Defined.

(** X13.  While the identifiers are pairwise distinct, an edit rewrites
    exactly the entry whose row was edited: that entry gets the new field
    value, every other entry and the order are kept. *)
Theorem update_rewrites_one_when_ids_distinct :
  (forall s j b f v,
      NoDup (map ButtonList.id (ButtonList.items s)) ->
      nth_error (ButtonList.items s) j = Some b ->
      ButtonList.items (ButtonList.updateItem (ButtonList.id b) f v s)
      = firstn j (ButtonList.items s) ++ [ButtonList.setField f v b]
        ++ skipn (S j) (ButtonList.items s))
  /\ (forall s j r f v,
         NoDup (map RequestResponse.id (RequestResponse.requests s)) ->
         nth_error (RequestResponse.requests s) j = Some r ->
         RequestResponse.requests
           (RequestResponse.updateRequest (RequestResponse.id r) f v s)
         = firstn j (RequestResponse.requests s) ++ [RequestResponse.setField f v r]
           ++ skipn (S j) (RequestResponse.requests s)).
Proof.
  split; intros s j b f v Hn Hj; simpl.
  - exact (map_unique_key ButtonList.id (ButtonList.setField f v) _ j b Hn Hj).
  - exact (map_unique_key RequestResponse.id (RequestResponse.setField f v) _ j b Hn Hj).
Qed.

Lemma update_rewrites_one_when_ids_distinct_witness :
  ButtonList.items
    (ButtonList.updateItem (lit "2") ButtonList.Link (lit "/docs")
       (ButtonList.mkState
          [ButtonList.mkItem (lit "A") (lit "/a") (lit "1");
           ButtonList.mkItem (lit "B") [] (lit "2")] false))
  = [ButtonList.mkItem (lit "A") (lit "/a") (lit "1");
     ButtonList.mkItem (lit "B") (lit "/docs") (lit "2")].
Proof.
  apply (proj1 update_rewrites_one_when_ids_distinct
           (ButtonList.mkState
              [ButtonList.mkItem (lit "A") (lit "/a") (lit "1");
               ButtonList.mkItem (lit "B") [] (lit "2")] false)
           1 (ButtonList.mkItem (lit "B") [] (lit "2"))).
  - simpl. repeat constructor; simpl; intuition discriminate.
  - reflexivity.
Defined.

(** X14.  A handler called with an identifier that no entry carries
    changes nothing: the remove and update handlers of the button list
    return the state as it is, and those of the request/response widget
    keep the request list. *)
Theorem unknown_id_changes_nothing :
  (forall i f v s,
      ~ In i (map ButtonList.id (ButtonList.items s)) ->
      ButtonList.removeItem i s = s /\ ButtonList.updateItem i f v s = s)
  /\ (forall i f v s,
         ~ In i (map RequestResponse.id (RequestResponse.requests s)) ->
         RequestResponse.requests (RequestResponse.removeRequestBlock i s)
         = RequestResponse.requests s
         /\ RequestResponse.updateRequest i f v s = s).
Proof.
  split; intros i f v s H.
  - destruct s as [l c]. simpl in H. split.
    + unfold ButtonList.removeItem, ButtonList.setItems. simpl.
      destruct (Nat.eqb (length l) 1); [reflexivity |].
      now rewrite (filter_other_keys ButtonList.id i l H).
    + unfold ButtonList.updateItem, ButtonList.setItems. simpl.
      now rewrite (map_other_keys ButtonList.id i (ButtonList.setField f v) l H).
  - destruct s as [m l r c h]. simpl in H. split.
    + unfold RequestResponse.removeRequestBlock. simpl.
      destruct (Nat.eqb (length l) 1); [reflexivity |]. simpl.
      exact (filter_other_keys RequestResponse.id i l H).
    + unfold RequestResponse.updateRequest, RequestResponse.setRequests. simpl.
      now rewrite (map_other_keys RequestResponse.id i
                     (RequestResponse.setField f v) l H).
Qed.

Lemma unknown_id_changes_nothing_witness :
  ButtonList.removeItem (lit "7") (ButtonList.addItem ButtonList.init)
  = ButtonList.addItem ButtonList.init.
Proof.
  apply (proj1 unknown_id_changes_nothing (lit "7") ButtonList.Label []
           (ButtonList.addItem ButtonList.init)).
  simpl. intuition discriminate.
Defined.

(** X15.  After [removeRequestBlock] took an entry out, no highlighted
    markup is stored under the removed identifier, and the markup stored
    under every other key is kept. *)
Theorem remove_forgets_highlighting (i : jsstring) (s : RequestResponse.State) :
  length (RequestResponse.requests s) <> 1 ->
  forall k m,
    In (k, m) (RequestResponse.highlightedCode (RequestResponse.removeRequestBlock i s))
    <-> (In (k, m) (RequestResponse.highlightedCode s) /\ k <> i).
Proof.
  intros Hl k m. apply Nat.eqb_neq in Hl.
  unfold RequestResponse.removeRequestBlock. rewrite Hl. simpl.
  unfold RequestResponse.deleteKey. rewrite filter_In. simpl.
  rewrite negb_true_iff. split; intros [H1 H2]; (split; [exact H1 |]).
  - intros ->. now rewrite string_eqb_refl in H2.
  - now apply string_eqb_neq.
Qed.

Lemma remove_forgets_highlighting_witness :
  let s := RequestResponse.mkState (lit "GET")
             [RequestResponse.mkRequest (lit "cURL") (lit "a") (lit "1");
              RequestResponse.mkRequest (lit "Go") (lit "b") (lit "2")]
             (lit "{}") false
             [(lit "1", lit "a"); (lit "2", lit "b"); (lit "response", lit "{}")] in
  ~ In (lit "2", lit "b")
       (RequestResponse.highlightedCode (RequestResponse.removeRequestBlock (lit "2") s))
  /\ In (lit "response", lit "{}")
        (RequestResponse.highlightedCode (RequestResponse.removeRequestBlock (lit "2") s)).
Proof.
  intros s.
  assert (Hl : length (RequestResponse.requests s) <> 1) by (simpl; discriminate).
  split.
  - intros K. apply (remove_forgets_highlighting (lit "2") s Hl) in K.
    destruct K as [_ K]. now apply K.
  - apply (remove_forgets_highlighting (lit "2") s Hl). split.
    + simpl. tauto.
    + discriminate.
Defined.

(** ** The copy action and its timer *)

(** X16.  The copy action never touches the form's content: whatever the
    clipboard answers, the state it returns has the same error status and
    serializes to the same text, and when the clipboard refuses the write
    the state is returned as it was. *)
Theorem copy_keeps_content (w : widget) (clipboard_ok : bool) :
  serialize (fst (handleCopy clipboard_ok w)) = serialize w
  /\ hasErrors (fst (handleCopy clipboard_ok w)) = hasErrors w
  /\ fst (handleCopy false w) = w.
Proof.
  destruct w as [s | s | s | s]; simpl.
  - unfold DocFooter.handleCopy.
    destruct (DocFooter.hasErrors s) eqn:E; simpl; rewrite ?E;
      destruct clipboard_ok; repeat split; reflexivity || exact E.
  - unfold RequestResponse.handleCopy, RequestResponse.hasErrors.
    destruct (_ || _) eqn:E; simpl; rewrite ?E;
      destruct clipboard_ok; repeat split; reflexivity || exact E.
  - unfold RequestResponsePlain.handleCopy, RequestResponsePlain.hasErrors.
    destruct (_ || _) eqn:E; simpl; rewrite ?E;
      destruct clipboard_ok; repeat split; reflexivity || exact E.
  - unfold ButtonList.handleCopy, ButtonList.hasErrors.
    destruct (existsb _ _) eqn:E; simpl; rewrite ?E;
      destruct clipboard_ok; repeat split; reflexivity || exact E.
Qed.

(** X17.  The [copied] indicator is transient: starting with the
    indicator off, a copy followed by the callback of its timer gives
    back the very state the copy started from. *)
Theorem copy_then_timeout_restores (w : widget) (clipboard_ok : bool) :
  copiedFlag w = false ->
  copiedTimeout (fst (handleCopy clipboard_ok w)) = w.
Proof.
  destruct w as [s | s | s | s]; simpl; intros H; f_equal.
  - unfold DocFooter.handleCopy. destruct s as [l sa c sh]. simpl in H. subst c.
    destruct (DocFooter.hasErrors _); [reflexivity |].
    destruct clipboard_ok; reflexivity.
  - unfold RequestResponse.handleCopy. destruct s as [m l r c h]. simpl in H. subst c.
    destruct (_ || _); [reflexivity |]. destruct clipboard_ok; reflexivity.
  - unfold RequestResponsePlain.handleCopy. destruct s as [m l r c]. simpl in H. subst c.
    destruct (_ || _); [reflexivity |]. destruct clipboard_ok; reflexivity.
  - unfold ButtonList.handleCopy. destruct s as [l c]. simpl in H. subst c.
    destruct (existsb _ _); [reflexivity |]. destruct clipboard_ok; reflexivity.
Qed.

Lemma copy_then_timeout_restores_witness :
  let w := DocFooterW
             (DocFooter.mkState
                [DocFooter.mkLink (lit "Guide") (lit "/docs/guide") (Some [])]
                None false false) in
  copiedFlag (fst (handleCopy true w)) = true
  /\ copiedTimeout (fst (handleCopy true w)) = w.
Proof.
  intros w. split; [reflexivity |].
  apply (copy_then_timeout_restores w true). reflexivity.
Defined.

(** ** The Prism variant simulates the plain variant *)

Lemma plain_rendered (i : jsstring) (l : list RequestResponse.RequestCode) :
  existsb (fun req => string_eqb (RequestResponsePlain.id req) i) (map plainRequest l)
  = existsb (fun req => string_eqb (RequestResponse.id req) i) l.
Proof. induction l as [|r l IH]; simpl; [reflexivity | now rewrite IH]. Qed.

Lemma plain_filter (i : jsstring) (l : list RequestResponse.RequestCode) :
  filter (fun req => negb (string_eqb (RequestResponsePlain.id req) i))
         (map plainRequest l)
  = map plainRequest
      (filter (fun req => negb (string_eqb (RequestResponse.id req) i)) l).
Proof.
  induction l as [|r l IH]; simpl; [reflexivity |].
  destruct (string_eqb (RequestResponse.id r) i); simpl; now rewrite IH.
Qed.

Lemma plain_update (i : jsstring) (f : RequestResponse.field)
    (f' : RequestResponsePlain.field) (v : jsstring)
    (l : list RequestResponse.RequestCode) :
  (forall r, plainRequest (RequestResponse.setField f v r)
             = RequestResponsePlain.setField f' v (plainRequest r)) ->
  map (fun req => if string_eqb (RequestResponsePlain.id req) i
                  then RequestResponsePlain.setField f' v req else req)
      (map plainRequest l)
  = map plainRequest
      (map (fun req => if string_eqb (RequestResponse.id req) i
                       then RequestResponse.setField f v req else req) l).
Proof.
  intros Hf. rewrite !map_map. apply map_ext. intros r. simpl.
  destruct (string_eqb (RequestResponse.id r) i); [now rewrite Hf | reflexivity].
Qed.

Lemma plain_handle (a : RequestResponse.action) (s : RequestResponse.State) :
  plainState (RequestResponse.handle a s)
  = RequestResponsePlain.dispatch (plainAction a) (plainState s).
Proof.
  destruct a; simpl.
  - match goal with |- context [if ?c then _ else _] => destruct c end; reflexivity.
  - unfold plainState, RequestResponsePlain.addRequestBlock. simpl.
    now rewrite map_app, length_map.
  - rewrite length_map, plain_rendered.
    destruct (Nat.eqb (length (RequestResponse.requests s)) 1) eqn:E; [reflexivity |].
    destruct (existsb _ _); [| reflexivity].
    unfold RequestResponse.removeRequestBlock, RequestResponsePlain.removeRequestBlock.
    simpl. rewrite length_map, E.
    unfold plainState, RequestResponsePlain.setRequests. simpl.
    now rewrite plain_filter.
  - rewrite plain_rendered.
    destruct (_ && _); [| reflexivity].
    unfold plainState, RequestResponsePlain.updateRequest,
      RequestResponsePlain.setRequests. simpl.
    now rewrite (plain_update id0 RequestResponse.Language
                   RequestResponsePlain.Language value).
  - rewrite plain_rendered.
    destruct (existsb _ _); [| reflexivity].
    unfold plainState, RequestResponsePlain.updateRequest,
      RequestResponsePlain.setRequests. simpl.
    now rewrite (plain_update id0 RequestResponse.Code
                   RequestResponsePlain.Code value).
  - reflexivity.
  - rewrite plain_hasErrors.
    destruct (RequestResponse.hasErrors s) eqn:E; [reflexivity |].
    unfold RequestResponse.handleCopy, RequestResponsePlain.handleCopy.
    unfold RequestResponse.hasErrors in E. rewrite E.
    pose proof (plain_hasErrors s) as P.
    unfold RequestResponsePlain.hasErrors, RequestResponse.hasErrors in P.
    rewrite P, E. destruct clipboard_ok; reflexivity.
  - reflexivity.
Qed.

Lemma plain_highlightEffect P J (s : RequestResponse.State) :
  match RequestResponse.highlightEffect P J s with
  | Some s' => plainState s' = plainState s
  | None => True
  end.
Proof.
  pose proof (highlightEffect_keeps_requests P J s) as K.
  destruct (RequestResponse.highlightEffect P J s) as [s'|]; [| exact I].
  destruct K as [Hm [Hr [Hp Hc]]]. unfold plainState. now rewrite Hm, Hr, Hp, Hc.
Qed.

Lemma plain_dispatch P J (a : RequestResponse.action) (s s' : RequestResponse.State) :
  RequestResponse.dispatch P J a s = Some s' ->
  plainState s' = RequestResponsePlain.dispatch (plainAction a) (plainState s).
Proof.
  rewrite <- plain_handle. unfold RequestResponse.dispatch.
  destruct (RequestResponse.setsDependencies a s); intros H.
  - pose proof (plain_highlightEffect P J (RequestResponse.handle a s)) as K.
    rewrite H in K. exact K.
  - injection H as <-. reflexivity.
Qed.

(** X18.  Until its highlighting hook throws, the Prism variant behaves
    as the plain variant does: whatever Prism and [JSON.parse] do, if a
    sequence of user actions leaves the Prism variant mounted, then its
    method, request list, response and [copied] indicator are those the
    same actions give in the plain variant, from any state and in
    particular from the initial one. *)
Theorem prism_simulates_plain P J (acts : list RequestResponse.action) :
  (forall s s',
      RequestResponse.run P J acts s = Some s' ->
      plainState s'
      = RequestResponsePlain.run (map plainAction acts) (plainState s))
  /\ (forall s',
         RequestResponse.run P J acts RequestResponse.init = Some s' ->
         plainState s'
         = RequestResponsePlain.run (map plainAction acts) RequestResponsePlain.init).
Proof.
  assert (H : forall s s',
             RequestResponse.run P J acts s = Some s' ->
             plainState s'
             = RequestResponsePlain.run (map plainAction acts) (plainState s)).
  { induction acts as [|a acts IH]; intros s s' R; simpl in R.
    - injection R as <-. reflexivity.
    - destruct (RequestResponse.dispatch P J a s) as [s1|] eqn:D; [| discriminate].
      change (RequestResponsePlain.run (map plainAction (a :: acts)) (plainState s))
        with (RequestResponsePlain.run (map plainAction acts)
                (RequestResponsePlain.dispatch (plainAction a) (plainState s))).
      rewrite <- (plain_dispatch P J a s s1 D). now apply IH. }
  split; [exact H | exact (H RequestResponse.init)].
Qed.

(** A run in which nothing is highlighted, under a Prism that throws on
    every call. *)
Lemma prism_simulates_plain_witness :
  exists s',
    RequestResponse.run (fun _ _ => None) (fun _ => None)
      [RequestResponse.AddRequestBlock;
       RequestResponse.SelectLanguage (lit "2") (lit "Go");
       RequestResponse.SetMethod (lit "POST")] RequestResponse.init = Some s'
    /\ plainState s'
       = RequestResponsePlain.mkState (lit "POST")
           [RequestResponsePlain.mkRequest (lit "cURL") [] (lit "1");
            RequestResponsePlain.mkRequest (lit "Go") [] (lit "2")] [] false.
Proof.
  eexists. split; [reflexivity |].
  rewrite (proj2 (prism_simulates_plain (fun _ _ => None) (fun _ => None)
                    [RequestResponse.AddRequestBlock;
                     RequestResponse.SelectLanguage (lit "2") (lit "Go");
                     RequestResponse.SetMethod (lit "POST")]) _ eq_refl).
  reflexivity.
Defined.

(** ** The shape of the docfooter tag *)

Lemma link_without_error (l : DocFooter.RelatedLink) :
  DocFooter.linkHasError l = false ->
  truthy (DocFooter.title l) = true /\ truthy (DocFooter.url l) = true.
Proof.
  unfold DocFooter.linkHasError. intros H.
  apply orb_false_iff in H as [H1 H2]. apply negb_false_iff in H1, H2.
  split; [exact H2 |].
  apply string_eqb_nil_r, validateUrl_nil_iff in H1. destruct H1 as [Hne _].
  destruct (DocFooter.url l); [congruence | reflexivity].
Qed.

(** X19.  In a valid state the docfooter tag carries the [relatedLinks]
    attribute and, exactly when the See Also checkbox is ticked and a See
    Also entry exists, a [seeAlso] attribute after one space; the further
    test of the serializer on the entry's title and url never suppresses
    the attribute, validity having established both. *)
Theorem docfooter_tag_shape (s : DocFooter.State) :
  DocFooter.hasErrors s = false ->
  DocFooter.generateMarkdoc s
  = lit "{% docfooter relatedLinks="
    ++ DocFooter.jsonAttr
         (JArray (map (fun l => DocFooter.linkObject (DocFooter.title l) (DocFooter.url l))
                      (DocFooter.links s)))
    ++ match DocFooter.seeAlso s with
       | Some sa =>
           if DocFooter.showSeeAlso s
           then lit " seeAlso="
                ++ DocFooter.jsonAttr
                     (DocFooter.linkObject (DocFooter.title sa) (DocFooter.url sa))
           else []
       | None => []
       end
    ++ lit " /%}".
Proof.
  intros H. unfold DocFooter.generateMarkdoc. rewrite H.
  unfold DocFooter.hasErrors in H. apply orb_false_iff in H as [_ H].
  set (related := DocFooter.jsonAttr (JArray _)). clearbody related.
  destruct (DocFooter.seeAlso s) as [sa|]; [destruct (DocFooter.showSeeAlso s) |].
  - simpl in H. destruct (link_without_error sa H) as [Ht Hu]. rewrite Ht, Hu.
    set (also := DocFooter.jsonAttr _). clearbody also.
    simpl. rewrite <- ?app_assoc. reflexivity.
  - simpl. rewrite <- ?app_assoc. reflexivity.
  - simpl. rewrite <- ?app_assoc. reflexivity.
Qed.

Lemma docfooter_tag_shape_witness :
  DocFooter.generateMarkdoc
    (DocFooter.mkState
       [DocFooter.mkLink (lit "Guide") (lit "/docs/guide") (Some [])]
       (Some (DocFooter.mkLink (lit "API") (lit "/docs/api") (Some [])))
       false true)
  = lit "{% docfooter relatedLinks=[{'title':'Guide','url':'/docs/guide'}] seeAlso={'title':'API','url':'/docs/api'} /%}".
Proof.
  rewrite docfooter_tag_shape; reflexivity.
Defined.

Lemma replace_dquote_none (s : jsstring) :
  ~ In dquote (replace_char dquote [squote] s).
Proof.
  unfold replace_char. induction s as [|c s IH]; simpl; [tauto |].
  destruct (char_eqb c dquote) eqn:E; simpl; intros [K | K]; try contradiction.
  - discriminate.
  - apply N.eqb_neq in E. contradiction.
Qed.

Lemma replace_ws_runs_in (c : char) (s : jsstring) :
  forall f, In c (replace_ws_runs_from f [space] s) -> In c s \/ c = space.
Proof.
  induction s as [|d s IH]; intros f; simpl; [tauto |].
  destruct (is_ws d).
  - destruct f; simpl; intros K.
    + destruct (IH _ K); tauto.
    + destruct K as [K | K]; [now right | destruct (IH _ K); tauto].
  - intros [K | K]; [tauto | destruct (IH _ K); tauto].
Qed.

Lemma jsonAttr_no_dquote (v : json) : ~ In dquote (DocFooter.jsonAttr v).
Proof.
  unfold DocFooter.jsonAttr, replace_ws_runs. intros K.
  apply replace_ws_runs_in in K as [K | K]; [| discriminate].
  exact (replace_dquote_none _ K).
Qed.

Lemma lit_no_dquote (t : string) :
  existsb (char_eqb dquote) (lit t) = false -> ~ In dquote (lit t).
Proof.
  intros H K. apply not_true_iff_false in H. apply H.
  apply existsb_exists. exists dquote. split; [exact K | apply N.eqb_refl].
Qed.

(** X20.  The text the docfooter serializer returns never holds a
    double-quote character, whatever the titles and urls hold: every
    double quote that [JSON.stringify] writes or escapes is replaced by a
    single quote. *)
Theorem docfooter_output_has_no_dquote (s : DocFooter.State) :
  ~ In dquote (DocFooter.generateMarkdoc s).
Proof.
  pose proof (lit_no_dquote "{% docfooter " eq_refl) as L1.
  pose proof (lit_no_dquote "relatedLinks=" eq_refl) as L2.
  pose proof (lit_no_dquote "seeAlso=" eq_refl) as L3.
  pose proof (lit_no_dquote " /%}" eq_refl) as L4.
  assert (S : space <> dquote) by discriminate.
  unfold DocFooter.generateMarkdoc.
  destruct (DocFooter.hasErrors s); [now apply lit_no_dquote |].
  set (related := DocFooter.jsonAttr _).
  assert (R : ~ In dquote related) by apply jsonAttr_no_dquote.
  clearbody related.
  assert (Q : ~ In dquote (lit "{% docfooter "
                           ++ join [space] [lit "relatedLinks=" ++ related]
                           ++ lit " /%}")).
  { cbn [join]. rewrite !in_app_iff. tauto. }
  destruct (DocFooter.seeAlso s) as [sa|]; [| exact Q].
  destruct (_ && _); [| exact Q].
  pose proof (jsonAttr_no_dquote
                (DocFooter.linkObject (DocFooter.title sa) (DocFooter.url sa))) as A.
  cbn [join app]. rewrite !in_app_iff. cbn [In]. rewrite !in_app_iff. tauto.
Qed.
